(** * csv_consolidator: a shallow embedding of [csv_consolidator.py]

    The script merges every [*.csv] file of [data/unprocessed/] into one
    table written to [data/processed/].  The embedding follows the source
    function by function.  Effects (file reads, logging, the terminal
    prompt, the write of the output file, exceptions) are threaded through
    a small state-and-exception monad over an explicit [World].

    Three things the script takes from its environment are parameters of
    the model:
    - the pandas functions [pd.read_csv] and [pd.to_datetime] (interface
      [Pandas]);
    - the iteration order of a Python [set] of strings, which depends on the
      per-process string hash seed ([SetOrder]);
    - the wall clock ([now]).

    A CSV file of [data/unprocessed/] is its lines of text; a file written
    by [to_csv] is kept as the table it was written from (header and
    records are functions of the table, [columns] and [records]).  The two
    [mkdir] calls of lines 120-121 change nothing the script reads back and
    are left out. *)

From Stdlib Require Import String Ascii List Bool ZArith Lia Permutation.
From stdpp Require Import base gmap strings list fin_maps sets.

Local Open Scope string_scope.
Local Open Scope list_scope.

(** ** Strings as Python uses them *)

Abbreviation path := string.

(** [needle in hay] on Python strings. *)
Fixpoint is_substring (needle hay : string) : bool :=
  String.prefix needle hay ||
  match hay with
  | EmptyString => false
  | String _ hay' => is_substring needle hay'
  end.

Definition lower_ascii (c : ascii) : ascii :=
  let n := nat_of_ascii c in
  if (65 <=? n)%nat && (n <=? 90)%nat then ascii_of_nat (n + 32) else c.

(** [s.lower()] (on ASCII text). *)
Fixpoint lower (s : string) : string :=
  match s with
  | EmptyString => EmptyString
  | String c s' => String (lower_ascii c) (lower s')
  end.

(** [s.endswith(suffix)]. *)
Definition endswith (s suffix : string) : bool :=
  let n := String.length s in
  let k := String.length suffix in
  (k <=? n)%nat && String.eqb (String.substring (n - k) k s) suffix.

Definition digit (n : nat) : string :=
  String (ascii_of_nat (48 + n mod 10)) EmptyString.

(** [%m] and [%d]: two digits, zero padded. *)
Definition pad2 (n : nat) : string := digit (n / 10) +:+ digit n.

(** [%Y]: four digits. *)
Definition pad4 (n : nat) : string :=
  digit (n / 1000) +:+ digit (n / 100) +:+ digit (n / 10) +:+ digit n.

(** ** Exceptions *)

Inductive exn : Type :=
| ValueError (msg : string)
| OSError (msg : string)       (* [open] failed *)
| ParserError (msg : string)   (* raised inside [pd.read_csv] *)
| KeyError (key : string)
| TypeError (msg : string)     (* a comparison pandas refuses *)
| EOFError.                    (* [input] at the end of standard input *)

Inductive result (A : Type) : Type :=
| Ok (a : A)
| Raise (e : exn).
Arguments Ok {A} a.
Arguments Raise {A} e.

(** ** Tables *)

(** A cell is null ([pd.NA] / [NaN]) or holds a scalar, kept as the text
    [pd.read_csv] made of it. *)
Inductive cell : Type :=
| NA
| Val (v : string).

#[global] Instance cell_eq_dec : EqDecision cell.
Proof. solve_decision. Defined.

(** A [DataFrame]: the ordered column index, and the rows in order, each a
    mapping from column label to cell. *)
Record DataFrame : Type := {
  columns : list string;
  rows : list (gmap string cell)
}.

(** The cell of row [r] of [df] under column [c]; only labels of
    [df.columns] address data. *)
Definition get_cell (df : DataFrame) (r : gmap string cell) (c : string) : cell :=
  if decide (c ∈ columns df) then default NA (r !! c) else NA.

(** [df[col]]: the values of one column, top to bottom. *)
Definition column_values (df : DataFrame) (col : string) : list cell :=
  (fun r => get_cell df r col) <$> rows df.

(** [df[col] = pd.NA] for a label that is not yet a column: a new last
    column, null in every row. *)
Definition set_column_na (df : DataFrame) (col : string) : DataFrame :=
  {| columns := columns df ++ [col];
     rows := (fun r => <[col := NA]> r) <$> rows df |}.

(** A row of [df] laid out over the labels [cols]: the row's own cell where
    [df] has the column, null elsewhere. *)
Definition project (df : DataFrame) (cols : list string) (r : gmap string cell)
  : gmap string cell :=
  list_to_map ((fun c => (c, get_cell df r c)) <$> cols).

(** Column labels of several frames, each label once, in order of first
    appearance (the outer join of [pd.concat], [sort=False]). *)
Fixpoint union_columns (acc : list string) (dfs : list DataFrame) : list string :=
  match dfs with
  | [] => acc
  | df :: dfs' =>
      union_columns
        (acc ++ filter (fun c => c ∉ acc) (remove_dups (columns df))) dfs'
  end.

(** [pd.concat(dfs, ignore_index=True)] for a non-empty list: the columns
    are joined, the rows of the frames follow one another.  A cell is
    carried over as it is.  The embedding follows no dtypes: that pandas may
    convert a column to a common dtype on the way, and then writes 1 as 1.0,
    is outside it. *)
Definition concat (dfs : list DataFrame) : DataFrame :=
  let cols := union_columns [] dfs in
  {| columns := cols;
     rows := flat_map (fun df => project df cols <$> rows df) dfs |}.

(** [df.reindex(columns=cols)]. *)
Definition reindex (df : DataFrame) (cols : list string) : DataFrame :=
  {| columns := cols; rows := project df cols <$> rows df |}.

(** The records of the CSV file that [to_csv] writes for [df]: one per
    row, the cells in the order of the header. *)
Definition records (df : DataFrame) : list (list cell) :=
  (fun r => (fun c => get_cell df r c) <$> columns df) <$> rows df.

(** ** Dates *)

(** A date and time of day, as four calendar fields; chronological order
    is the lexicographic order of the fields. *)
Record Clock : Type := {
  c_year : nat;
  c_month : nat;
  c_day : nat;
  c_ns : nat        (* time of day *)
}.

(** A [pd.Timestamp]: the date and time it shows (what [strftime] prints)
    and, when it is timezone-aware, the date and time of the same instant in
    UTC (what comparisons go by).  A timezone-naive timestamp has no UTC
    reading and is compared by what it shows. *)
Record Timestamp : Type := {
  year : nat;
  month : nat;
  day : nat;
  time_ns : nat;    (* time of day *)
  utc : option Clock
}.

(** [t.tzinfo is not None]. *)
Definition aware (t : Timestamp) : bool :=
  match utc t with
  | Some _ => true
  | None => false
  end.

(** What a timestamp is compared by. *)
Definition sort_key (t : Timestamp) : Clock :=
  match utc t with
  | Some k => k
  | None => {| c_year := year t; c_month := month t; c_day := day t; c_ns := time_ns t |}
  end.

(** An element of a datetime Series: a timestamp or [NaT]. *)
Inductive datetime : Type :=
| NaT
| TS (t : Timestamp).

Definition clock_ltb (a b : Clock) : bool :=
  (c_year a <? c_year b)%nat ||
  ((c_year a =? c_year b)%nat &&
   ((c_month a <? c_month b)%nat ||
    ((c_month a =? c_month b)%nat &&
     ((c_day a <? c_day b)%nat ||
      ((c_day a =? c_day b)%nat && (c_ns a <? c_ns b)%nat))))).

(** The order of two timestamps that can be compared. *)
Definition ts_ltb (a b : Timestamp) : bool := clock_ltb (sort_key a) (sort_key b).

(** The exception of a comparison between a timezone-aware and a
    timezone-naive timestamp. *)
Definition tz_mismatch : exn :=
  TypeError "Cannot compare tz-naive and tz-aware timestamps".

(** [a < b] on two elements of a list of dates: every comparison with
    [NaT] is [False]; two timestamps are compared when both are
    timezone-aware or both timezone-naive, and [TypeError] is raised
    otherwise. *)
Definition dt_lt (a b : datetime) : result bool :=
  match a, b with
  | TS x, TS y =>
      if Bool.eqb (aware x) (aware y) then Ok (ts_ltb x y) else Raise tz_mismatch
  | _, _ => Ok false
  end.

(** [Series.min()]: nulls are skipped; [NaT] when nothing is left.  (A
    datetime Series has one dtype: its timestamps are all timezone-aware or
    all timezone-naive.) *)
Fixpoint series_min (dates : list datetime) : datetime :=
  match dates with
  | [] => NaT
  | NaT :: rest => series_min rest
  | TS t :: rest =>
      match series_min rest with
      | NaT => TS t
      | TS u => if ts_ltb u t then TS u else TS t
      end
  end.

(** The builtin [min] on a non-empty list: the first of the smallest; a
    comparison that raises ends it. *)
Fixpoint min_from (cur : datetime) (l : list datetime) : result datetime :=
  match l with
  | [] => Ok cur
  | x :: l' =>
      match dt_lt x cur with
      | Ok b => min_from (if b then x else cur) l'
      | Raise e => Raise e
      end
  end.

(** The builtin [max] on a non-empty list ([x > cur] is [cur < x]). *)
Fixpoint max_from (cur : datetime) (l : list datetime) : result datetime :=
  match l with
  | [] => Ok cur
  | x :: l' =>
      match dt_lt cur x with
      | Ok b => max_from (if b then x else cur) l'
      | Raise e => Raise e
      end
  end.

Definition format_mdY (t : Timestamp) : string :=
  pad2 (month t) +:+ "-" +:+ pad2 (day t) +:+ "-" +:+ pad4 (year t).

(** [d.strftime("%m-%d-%Y")]; [NaT] has no [strftime]. *)
Definition strftime (d : datetime) : result string :=
  match d with
  | NaT => Raise (ValueError "NaTType does not support strftime")
  | TS t => Ok (format_mdY t)
  end.

(** ** The pandas functions the script calls *)

Class Pandas : Type := {
  (** [pd.read_csv(file_path, skiprows=n)]: pandas is given the file as it
      is, and the number of rows to skip, which it counts in its own way (a
      quoted field may hold a line break). *)
  read_csv : list string → Z → result DataFrame;
  (** [pd.to_datetime] on one column. *)
  to_datetime : list cell → result (list datetime)
}.

(** ** Python sets of strings *)

(** [list(s)] and [for x in s]: some enumeration of the elements, each
    once.  Which one is fixed within a process, not across processes: the
    hash of a [str] is salted per process.  The order is taken to depend on
    the elements only; nothing else is assumed of it. *)
Record SetOrder : Type := {
  iter :> gset string → list string;
  iter_perm : ∀ s, iter s ≡ₚ elements s
}.

(** ** The world the script runs in *)

(** What [open(file).readlines()] finds. *)
Inductive file_data : Type :=
| Unreadable (why : string)
| Text (lines : list string).

Inductive level : Type := INFO | WARNING | ERROR.

(** The log lines of the script, by the statement that writes them. *)
Inductive message : Type :=
| MsgNoCsvFiles                                        (* "No CSV files found in ..." *)
| MsgFound (n : nat)                                   (* "Found n CSV files to process" *)
| MsgErrorReading (file : path) (e : exn)              (* "Error reading file: e" *)
| MsgErrorReadingHeaders (file : path) (e : exn)       (* "Error reading headers from file: e" *)
| MsgDifferentHeaders                                  (* "Found different headers across files:" *)
| MsgAdditionalHeaders (file : path) (diff : gset string)
| MsgCommonOnly                                        (* "Proceeding with only common headers" *)
| MsgSuccessfullyRead (file : path)
| MsgNoValid                                           (* "No valid CSV files could be read" *)
| MsgConsolidated (n : nat) (output : path)
| MsgTotalRows (n : nat)
| MsgTotalColumns (n : nat)
| MsgErrorOccurred (e : exn).                          (* "An error occurred: e" *)

Inductive event : Type :=
| Log (lv : level) (m : message)
| Prompt (text : string).          (* [input(text)] shows its prompt *)

Record World : Type := {
  unprocessed : list (path * file_data);  (* data/unprocessed, in listing order *)
  processed : gmap string DataFrame;      (* data/processed: the CSV files written *)
  stdin : list string;                    (* the lines still to be read *)
  events : list event                     (* what was logged and prompted, oldest first *)
}.

(** What a run added to the log and the terminal. *)
Definition new_events (w w' : World) : list event :=
  drop (length (events w)) (events w').

(** An event that is neither a warning nor a prompt. *)
Definition quiet (ev : event) : Prop :=
  match ev with
  | Log WARNING _ => False
  | Log _ _ => True
  | Prompt _ => False
  end.

(** ** State and exceptions *)

Definition M (A : Type) : Type := World → result A * World.

Definition ret {A} (a : A) : M A := fun w => (Ok a, w).

Definition bind {A B} (m : M A) (k : A → M B) : M B :=
  fun w => match m w with
           | (Ok a, w') => k a w'
           | (Raise e, w') => (Raise e, w')
           end.

Definition raise {A} (e : exn) : M A := fun w => (Raise e, w).

(** [try: body  except Exception as e: handler]. *)
Definition try_except {A} (body : M A) (handler : exn → M A) : M A :=
  fun w => match body w with
           | (Ok a, w') => (Ok a, w')
           | (Raise e, w') => handler e w'
           end.

Definition lift {A} (r : result A) : M A := fun w => (r, w).

Declare Scope py_scope.
Delimit Scope py_scope with py.
Notation "x <- m ;; k" := (bind m (fun x => k))
  (at level 100, m at next level, right associativity) : py_scope.
Notation "m ;;; k" := (bind m (fun _ => k))
  (at level 100, right associativity) : py_scope.
Local Open Scope py_scope.

Definition add_events (evs : list event) (w : World) : World :=
  {| unprocessed := unprocessed w; processed := processed w;
     stdin := stdin w; events := events w ++ evs |}.

Definition set_stdin (lines : list string) (w : World) : World :=
  {| unprocessed := unprocessed w; processed := processed w;
     stdin := lines; events := events w |}.

Definition write_file (name : path) (df : DataFrame) (w : World) : World :=
  {| unprocessed := unprocessed w; processed := <[name := df]> (processed w);
     stdin := stdin w; events := events w |}.

Definition emit (ev : event) : M unit := fun w => (Ok tt, add_events [ev] w).

Definition log (lv : level) (m : message) : M unit := emit (Log lv m).

(** [input(text)]: show the prompt, take one line. *)
Definition input (text : string) : M string :=
  emit (Prompt text) ;;;
  fun w => match stdin w with
           | [] => (Raise EOFError, w)
           | line :: rest => (Ok line, set_stdin rest w)
           end.

(** [UNPROCESSED_DIR.glob('*.csv')]. *)
Definition glob_csv : M (list path) :=
  fun w => (Ok (filter (fun f => endswith f ".csv" = true) (unprocessed w).*1), w).

Fixpoint lookup_file (dir : list (path * file_data)) (file : path) : option file_data :=
  match dir with
  | [] => None
  | (f, d) :: dir' => if String.eqb f file then Some d else lookup_file dir' file
  end.

(** [with open(file_path, 'r') as f: lines = f.readlines()]. *)
Definition readlines (file_path : path) : M (list string) :=
  fun w => match lookup_file (unprocessed w) file_path with
           | Some (Text lines) => (Ok lines, w)
           | Some (Unreadable why) => (Raise (OSError why), w)
           | None => (Raise (OSError "No such file or directory"), w)
           end.

(** [final_df.to_csv(output_path, index=False)]: the file is opened for
    writing, so whatever was there is replaced.  The name is taken to
    address a file of [data/processed/], which line 121 has created, that
    can be opened; a name with a directory part that does not exist, which
    makes [to_csv] raise [OSError], is outside the embedding. *)
Definition to_csv (df : DataFrame) (output_filename : path) : M unit :=
  fun w => (Ok tt, write_file output_filename df w).

(** ** The script *)

Section Script.
Context `{pandas : Pandas}.
Variable set_order : SetOrder.
Variable now : Timestamp.

(** [get_csv_date], lines 29-44. *)
Definition date_columns : list string :=
  ["date"; "timestamp"; "created_at"; "datetime"; "time"; "Timestamp"].

(** [any(date_name in col_lower for date_name in date_columns)]. *)
Definition is_date_name (col : string) : bool :=
  let col_lower := lower col in
  existsb (fun date_name => is_substring date_name col_lower) date_columns.

(** The loop over [df.columns]: a column that raises in [pd.to_datetime]
    or is empty is passed over; the first other one returns [dates.min()],
    be it a timestamp or [NaT]. *)
Fixpoint get_csv_date_from (df : DataFrame) (cols : list string) : option datetime :=
  match cols with
  | [] => None
  | col :: cols' =>
      if is_date_name col then
        match to_datetime (column_values df col) with
        | Ok dates =>
            match dates with
            | [] => get_csv_date_from df cols'
            | _ :: _ => Some (series_min dates)
            end
        | Raise _ => get_csv_date_from df cols'
        end
      else get_csv_date_from df cols'
  end.

Definition get_csv_date (df : DataFrame) : option datetime :=
  get_csv_date_from df (columns df).

(** What one column yields in [get_csv_date]: the minimum of its parsed
    values when its name is a date name, it parses and it is not empty. *)
Definition column_date (df : DataFrame) (col : string) : option datetime :=
  if is_date_name col then
    match to_datetime (column_values df col) with
    | Ok (d :: ds) => Some (series_min (d :: ds))
    | Ok [] => None
    | Raise _ => None
    end
  else None.

(** [read_csv_with_metadata], lines 46-71. *)
Definition marker : string := "ID,Timestamp,Transaction Type".

(** The loop of lines 56-60: the index of the first line holding the
    marker, [-1] when there is none. *)
Fixpoint find_header (i : Z) (lines : list string) : Z :=
  match lines with
  | [] => (-1)%Z
  | line :: lines' =>
      if is_substring marker line then i else find_header (i + 1)%Z lines'
  end.

(** The file is read twice: by [readlines], to find the marker, and by
    [pd.read_csv(file_path, skiprows=header_index)]; whatever is raised is
    logged and raised again. *)
Definition read_csv_with_metadata (file_path : path) : M DataFrame :=
  try_except
    (lines <- readlines file_path ;;
     let header_index := find_header 0%Z lines in
     if (header_index =? -1)%Z then raise (ValueError "Could not find CSV headers")
     else lift (read_csv lines header_index))
    (fun e => log ERROR (MsgErrorReading file_path e) ;;; raise e).

(** What [read_csv_with_metadata file] returns or raises in a directory
    [dir], the logging left out. *)
Definition load (dir : list (path * file_data)) (file : path) : result DataFrame :=
  match lookup_file dir file with
  | Some (Text lines) =>
      let header_index := find_header 0%Z lines in
      if (header_index =? -1)%Z then Raise (ValueError "Could not find CSV headers")
      else read_csv lines header_index
  | Some (Unreadable why) => Raise (OSError why)
  | None => Raise (OSError "No such file or directory")
  end.

(** [set(df.columns)] of a file; empty when the file does not load. *)
Definition column_set (dir : list (path * file_data)) (file : path) : gset string :=
  match load dir file with
  | Ok df => list_to_set (columns df)
  | Raise _ => ∅
  end.

(** The tables of the files that load, in the order of the files. *)
Definition tables (dir : list (path * file_data)) (files : list path) : list DataFrame :=
  omap (fun f => match load dir f with Ok df => Some df | Raise _ => None end) files.

(** Some line of the text holds the header marker. *)
Definition has_marker (lines : list string) : bool :=
  existsb (is_substring marker) lines.

(** The file is readable text without the header marker. *)
Definition lacks_marker (dir : list (path * file_data)) (file : path) : bool :=
  match lookup_file dir file with
  | Some (Text lines) => negb (has_marker lines)
  | _ => false
  end.

(** [df.columns] of a file, in the file's own order. *)
Definition file_columns (dir : list (path * file_data)) (file : path) : list string :=
  match load dir file with
  | Ok df => columns df
  | Raise _ => []
  end.

(** [df[col]] of a file. *)
Definition file_column (dir : list (path * file_data)) (file : path) (col : string)
  : list cell :=
  match load dir file with
  | Ok df => column_values df col
  | Raise _ => []
  end.

(** [headers_by_file[file] = headers] on a dict kept in insertion order. *)
Fixpoint dict_set (d : list (path * gset string)) (file : path) (headers : gset string)
  : list (path * gset string) :=
  match d with
  | [] => [(file, headers)]
  | (f, h) :: d' =>
      if String.eqb f file then (f, headers) :: d' else (f, h) :: dict_set d' file headers
  end.

Fixpoint dict_get (d : list (path * gset string)) (file : path) : result (gset string) :=
  match d with
  | [] => Raise (KeyError file)
  | (f, h) :: d' => if String.eqb f file then Ok h else dict_get d' file
  end.

(** [get_all_headers], lines 73-88: the loop, with [all_headers] and
    [headers_by_file] as they stand; a file that fails is logged and the
    exception raised again. *)
Fixpoint get_all_headers_loop (csv_files : list path) (all_headers : gset string)
    (headers_by_file : list (path * gset string))
  : M (gset string * list (path * gset string)) :=
  match csv_files with
  | [] => ret (all_headers, headers_by_file)
  | file :: csv_files' =>
      headers <- try_except
                   (df <- read_csv_with_metadata file ;;
                    ret (list_to_set (columns df) : gset string))
                   (fun e => log ERROR (MsgErrorReadingHeaders file e) ;;; raise e) ;;
      get_all_headers_loop csv_files' (all_headers ∪ headers)
        (dict_set headers_by_file file headers)
  end.

Definition get_all_headers (csv_files : list path)
  : M (gset string * list (path * gset string)) :=
  get_all_headers_loop csv_files ∅ [].

(** [generate_date_range_filename], lines 90-110. *)
Definition generate_date_range_filename (dfs : list DataFrame) : result string :=
  let all_dates := omap get_csv_date dfs in
  match all_dates with
  | d :: ds =>
      match min_from d ds with
      | Raise e => Raise e
      | Ok earliest =>
          match max_from d ds with
          | Raise e => Raise e
          | Ok latest =>
              match strftime earliest with
              | Raise e => Raise e
              | Ok a =>
                  match strftime latest with
                  | Raise e => Raise e
                  | Ok b => Ok ("consolidated_" +:+ a +:+ "_thru_" +:+ b +:+ ".csv")
                  end
              end
          end
      end
  | [] => Ok ("consolidated_" +:+ format_mdY now +:+ ".csv")
  end.

(** Lines 157-159: every label of [all_headers] the frame lacks becomes a
    null column, in the set's iteration order. *)
Definition pad (all_headers : gset string) (df : DataFrame) : DataFrame :=
  fold_left (fun df col => if decide (col ∈ columns df) then df else set_column_na df col)
            (set_order all_headers) df.

(** Lines 152-164: a file that fails is logged and left out. *)
Fixpoint merge_loop (all_headers : gset string) (csv_files : list path)
    (dfs : list DataFrame) : M (list DataFrame) :=
  match csv_files with
  | [] => ret dfs
  | file :: csv_files' =>
      dfs' <- try_except
                (df <- read_csv_with_metadata file ;;
                 let df := pad all_headers df in
                 log INFO (MsgSuccessfullyRead file) ;;;
                 ret (dfs ++ [df]))
                (fun e => log ERROR (MsgErrorReading file e) ;;; ret dfs) ;;
      merge_loop all_headers csv_files' dfs'
  end.

(** Lines 141-144: [for file, headers in headers_by_file.items()]. *)
Fixpoint warn_additional (items : list (path * gset string)) (base_headers : gset string)
  : M unit :=
  match items with
  | [] => ret tt
  | (file, headers) :: items' =>
      let diff := headers ∖ base_headers in
      (if decide (diff = ∅) then ret tt
       else log WARNING (MsgAdditionalHeaders file diff)) ;;;
      warn_additional items' base_headers
  end.

(** The prompt of line 146 (its leading newline left out). *)
Definition question : string := "Would you like to include these new columns? [y/N]: ".

(** [consolidate_csvs], lines 112-193.  An early [return] ends the [try]
    body with no value. *)
Definition consolidate_csvs (output_filename : option string) : M unit :=
  csv_files <- glob_csv ;;
  match csv_files with
  | [] => log ERROR MsgNoCsvFiles
  | first :: _ =>
      log INFO (MsgFound (length csv_files)) ;;;
      try_except
        (hs <- get_all_headers csv_files ;;
         let '(all_headers, headers_by_file) := hs in
         base_headers <- lift (dict_get headers_by_file first) ;;
         let new_headers := all_headers ∖ base_headers in
         all_headers <-
           (if decide (new_headers = ∅) then ret all_headers
            else
              log WARNING MsgDifferentHeaders ;;;
              warn_additional headers_by_file base_headers ;;;
              response <- input question ;;
              if String.eqb (lower response) "y" then ret all_headers
              else log INFO MsgCommonOnly ;;; ret base_headers) ;;
         dfs <- merge_loop all_headers csv_files [] ;;
         match dfs with
         | [] => log ERROR MsgNoValid
         | _ :: _ =>
             let final_df := concat dfs in
             let final_df := reindex final_df (set_order all_headers) in
             output_filename <-
               match output_filename with
               | None => lift (generate_date_range_filename dfs)
               | Some name =>
                   ret (if endswith name ".csv" then name else name +:+ ".csv")
               end ;;
             to_csv final_df output_filename ;;;
             log INFO (MsgConsolidated (length dfs) output_filename) ;;;
             log INFO (MsgTotalRows (length (rows final_df))) ;;;
             log INFO (MsgTotalColumns (length (columns final_df)))
         end)
        (fun e => log ERROR (MsgErrorOccurred e) ;;; raise e)
  end.

(** ** The script, step by step

    Names for the parts and outcomes of a run, used to state what
    [consolidate_csvs] does. *)

(** The candidate files of a directory, in listing order. *)
Definition glob (dir : list (path * file_data)) : list path :=
  filter (fun f => endswith f ".csv" = true) dir.*1.

(** [read_csv_with_metadata file] returns a table. *)
Definition loads (dir : list (path * file_data)) (file : path) : bool :=
  match load dir file with
  | Ok _ => true
  | Raise _ => false
  end.

(** The first file of the list that does not load, with its exception. *)
Fixpoint first_failure (dir : list (path * file_data)) (files : list path)
  : option (path * exn) :=
  match files with
  | [] => None
  | f :: files' =>
      match load dir f with
      | Ok _ => first_failure dir files'
      | Raise e => Some (f, e)
      end
  end.

(** The union of the column sets of the files. *)
Definition union_headers (dir : list (path * file_data)) (files : list path) : gset string :=
  ⋃ (column_set dir <$> files).

(** [headers_by_file] once every file of the list is entered. *)
Definition header_dict (dir : list (path * file_data)) (files : list path)
    (d : list (path * gset string)) : list (path * gset string) :=
  foldl (fun d f => dict_set d f (column_set dir f)) d files.

(** The exception of line 63. *)
Definition no_headers : exn := ValueError "Could not find CSV headers".

(** What the merge loop logs for one file: success, or the failure twice
    (once by [read_csv_with_metadata], once by the loop's own handler). *)
Definition merge_events (dir : list (path * file_data)) (files : list path) : list event :=
  flat_map (fun f => match load dir f with
                     | Ok _ => [Log INFO (MsgSuccessfullyRead f)]
                     | Raise e => [Log ERROR (MsgErrorReading f e);
                                   Log ERROR (MsgErrorReading f e)]
                     end) files.

(** The per-file warnings of lines 141-144. *)
Definition additional_warnings (items : list (path * gset string))
    (base_headers : gset string) : list event :=
  flat_map (fun item : path * gset string =>
              if decide (item.2 ∖ base_headers = ∅) then []
              else [Log WARNING (MsgAdditionalHeaders item.1 (item.2 ∖ base_headers))])
           items.

(** What is shown before the answer is read. *)
Definition reconcile_events (items : list (path * gset string))
    (base_headers : gset string) : list event :=
  Log WARNING MsgDifferentHeaders :: additional_warnings items base_headers
    ++ [Prompt question].

(** Lines 139-149: the schema decision, with its warnings and prompt. *)
Definition reconcile (all_headers : gset string)
    (headers_by_file : list (path * gset string)) (base_headers : gset string)
  : M (gset string) :=
  if decide (all_headers ∖ base_headers = ∅) then ret all_headers
  else
    log WARNING MsgDifferentHeaders ;;;
    warn_additional headers_by_file base_headers ;;;
    response <- input question ;;
    if String.eqb (lower response) "y" then ret all_headers
    else log INFO MsgCommonOnly ;;; ret base_headers.

(** Lines 129-149 once the header pass has gone through every file of
    [first :: rest]: the count of files is logged and the schema decided. *)
Definition schema_decision (w : World) (first : path) (rest : list path)
  : result (gset string) * World :=
  let dir := unprocessed w in
  let files := first :: rest in
  reconcile (union_headers dir files) (header_dict dir files []) (column_set dir first)
            (add_events [Log INFO (MsgFound (length files))] w).

(** Lines 177-180: the name of the output file. *)
Definition output_name (out : option string) (dfs : list DataFrame) : result string :=
  match out with
  | None => generate_date_range_filename dfs
  | Some name => Ok (if endswith name ".csv" then name else name +:+ ".csv")
  end.

(** Lines 166-189: concatenate, reindex, name and write. *)
Definition write_out (all_headers : gset string) (output_filename : option string)
    (dfs : list DataFrame) : M unit :=
  match dfs with
  | [] => log ERROR MsgNoValid
  | _ :: _ =>
      let final_df := concat dfs in
      let final_df := reindex final_df (set_order all_headers) in
      output_filename <-
        match output_filename with
        | None => lift (generate_date_range_filename dfs)
        | Some name => ret (if endswith name ".csv" then name else name +:+ ".csv")
        end ;;
      to_csv final_df output_filename ;;;
      log INFO (MsgConsolidated (length dfs) output_filename) ;;;
      log INFO (MsgTotalRows (length (rows final_df))) ;;;
      log INFO (MsgTotalColumns (length (columns final_df)))
  end.

(** The table written when the final list is the set [H]: its columns are
    the list, and every row of every table is laid out over it. *)
Definition final_table (H : gset string) (ts : list DataFrame) : DataFrame :=
  {| columns := set_order H;
     rows := flat_map (fun df => project df (set_order H) <$> rows df) ts |}.

(** The three log lines of lines 187-189. *)
Definition closing_events (n : nat) (name : path) (final : DataFrame) : list event :=
  [Log INFO (MsgConsolidated n name);
   Log INFO (MsgTotalRows (length (rows final)));
   Log INFO (MsgTotalColumns (length (columns final)))].

(** Lines 151-189 on a world [w] in which the schema is settled. *)
Definition finish (H : gset string) (out : option string) (files : list path) (w : World)
  : result unit * World :=
  let ts := tables (unprocessed w) files in
  let w' := add_events (merge_events (unprocessed w) files) w in
  match ts with
  | [] => (Ok tt, add_events [Log ERROR MsgNoValid] w')
  | _ :: _ =>
      match output_name out (pad H <$> ts) with
      | Ok name =>
          (Ok tt, add_events (closing_events (length ts) name (final_table H ts))
                    (write_file name (final_table H ts) w'))
      | Raise e => (Raise e, w')
      end
  end.

(** Lines 191-193: log and re-raise. *)
Definition guard (r : result unit * World) : result unit * World :=
  match r with
  | (Ok a, w) => (Ok a, w)
  | (Raise e, w) => (Raise e, add_events [Log ERROR (MsgErrorOccurred e)] w)
  end.

End Script.

(** ** The outcomes of a run, and the program around it *)

(** The world after a run: the input directory as it was, with what the
    run left of standard input, of [data/processed/] and of the log. *)
Definition outcome_world (w : World) (lines : list string)
    (files : gmap string DataFrame) (evs : list event) : World :=
  {| unprocessed := unprocessed w; processed := files; stdin := lines;
     events := events w ++ evs |}.

(** The texts of the prompts among some events, in order. *)
Definition prompts (evs : list event) : list string :=
  omap (fun ev => match ev with Prompt text => Some text | Log _ _ => None end) evs.

(** The timestamps among some dates, the [NaT] left out. *)
Definition timestamps (ds : list datetime) : list Timestamp :=
  omap (fun d => match d with TS t => Some t | NaT => None end) ds.

(** The answers that keep the extra columns: the single letter y, in either
    case. *)
Definition affirmative (answer : string) : bool :=
  String.eqb answer "y" || String.eqb answer "Y".


(** The rows of several tables, counted together. *)
Definition total_rows (ts : list DataFrame) : nat :=
  sum_list ((fun df => length (rows df)) <$> ts).

Section Outcomes.
Context `{pandas : Pandas}.
Variable set_order : SetOrder.
Variable now : Timestamp.

(** How lines 135-149 settle the schema when every file of [first :: rest]
    has loaded: the set chosen, what was logged and shown for it, and what
    is left of standard input. *)
Inductive decided (w : World) (first : path) (rest : list path)
  : gset string → list event → list string → Prop :=
| decided_same :
    union_headers (unprocessed w) (first :: rest) ∖ column_set (unprocessed w) first = ∅ →
    decided w first rest (union_headers (unprocessed w) (first :: rest)) [] (stdin w)
| decided_yes line lines :
    union_headers (unprocessed w) (first :: rest) ∖ column_set (unprocessed w) first ≠ ∅ →
    stdin w = line :: lines →
    String.eqb (lower line) "y" = true →
    decided w first rest (union_headers (unprocessed w) (first :: rest))
      (reconcile_events (header_dict (unprocessed w) (first :: rest) [])
                        (column_set (unprocessed w) first)) lines
| decided_no line lines :
    union_headers (unprocessed w) (first :: rest) ∖ column_set (unprocessed w) first ≠ ∅ →
    stdin w = line :: lines →
    String.eqb (lower line) "y" = false →
    decided w first rest (column_set (unprocessed w) first)
      (reconcile_events (header_dict (unprocessed w) (first :: rest) [])
                        (column_set (unprocessed w) first)
         ++ [Log INFO MsgCommonOnly]) lines.

(** The process: what it printed with [print], its exit status, and the
    world it leaves. *)
Record Process : Type := {
  exit_status : nat;
  printed : list string;
  world_after : World
}.

Definition usage : list string :=
  ["Usage: python csv_consolidator.py [output_filename]";
   "Example: python csv_consolidator.py combined_output.csv"].

(** The [__main__] block, lines 195-202, on [sys.argv].  An exception that
    leaves [consolidate_csvs] ends the process with status 1. *)
Definition main (argv : list string) (w : World) : Process :=
  if (2 <? length argv)%nat then
    {| exit_status := 1; printed := usage; world_after := w |}
  else
    let output_filename :=
      if (length argv =? 2)%nat then nth_error argv 1 else None in
    match consolidate_csvs set_order now output_filename w with
    | (Ok _, w') => {| exit_status := 0; printed := []; world_after := w' |}
    | (Raise _, w') => {| exit_status := 1; printed := []; world_after := w' |}
    end.

End Outcomes.

(** * Concrete runs

    A small stand-in for pandas (rows are lines, fields split at commas, an
    empty field is null; dates in the form YYYY-MM-DD, timezone-naive, or
    YYYY-MM-DDT00:00:00Z, timezone-aware in UTC; null parsed as [NaT]) and
    two hash seeds, to run the script on explicit directories. *)

Module Sample.

Fixpoint split_commas (s : string) : list string :=
  match s with
  | EmptyString => [EmptyString]
  | String c s' =>
      if Ascii.eqb c "," then EmptyString :: split_commas s'
      else match split_commas s' with
           | [] => [String c EmptyString]
           | field :: fields => String c field :: fields
           end
  end.

Definition to_cell (field : string) : cell :=
  if String.eqb field "" then NA else Val field.

Definition sample_read_csv (lines : list string) (skiprows : Z) : result DataFrame :=
  match drop (Z.to_nat skiprows) lines with
  | [] => Raise (ParserError "No columns to parse from file")
  | header :: data =>
      let cols := split_commas header in
      Ok {| columns := cols;
            rows := (fun line => list_to_map (zip cols (to_cell <$> split_commas line)))
                      <$> data |}
  end.

Definition digit_of (c : ascii) : option nat :=
  let n := nat_of_ascii c in
  if (48 <=? n)%nat && (n <=? 57)%nat then Some (n - 48) else None.

Definition number_of (cs : list ascii) : option nat :=
  foldl (fun acc c => match acc, digit_of c with
                      | Some n, Some d => Some (10 * n + d)
                      | _, _ => None
                      end) (Some 0) cs.

Definition parse_iso_date (s : string) : option Timestamp :=
  match list_ascii_of_string s with
  | [y1; y2; y3; y4; dash1; m1; m2; dash2; d1; d2] =>
      if Ascii.eqb dash1 "-" && Ascii.eqb dash2 "-" then
        match number_of [y1; y2; y3; y4], number_of [m1; m2], number_of [d1; d2] with
        | Some y, Some m, Some d =>
            Some {| year := y; month := m; day := d; time_ns := 0; utc := None |}
        | _, _, _ => None
        end
      else None
  | [y1; y2; y3; y4; dash1; m1; m2; dash2; d1; d2; tee;
     h1; h2; colon1; n1; n2; colon2; s1; s2; zed] =>
      if Ascii.eqb dash1 "-" && Ascii.eqb dash2 "-" && Ascii.eqb tee "T"
         && Ascii.eqb colon1 ":" && Ascii.eqb colon2 ":" && Ascii.eqb zed "Z" then
        match number_of [y1; y2; y3; y4], number_of [m1; m2], number_of [d1; d2],
              number_of [h1; h2; n1; n2; s1; s2] with
        | Some y, Some m, Some d, Some 0 =>
            Some {| year := y; month := m; day := d; time_ns := 0;
                    utc := Some {| c_year := y; c_month := m; c_day := d; c_ns := 0 |} |}
        | _, _, _, _ => None
        end
      else None
  | _ => None
  end.

Fixpoint parse_dates (col : list cell) : result (list datetime) :=
  match col with
  | [] => Ok []
  | c :: col' =>
      match parse_dates col' with
      | Raise e => Raise e
      | Ok dates =>
          match c with
          | NA => Ok (NaT :: dates)
          | Val v =>
              match parse_iso_date v with
              | Some t => Ok (TS t :: dates)
              | None => Raise (ValueError "Unknown datetime string format")
              end
          end
      end
  end.

(** The timestamps of one column are all timezone-aware or all
    timezone-naive. *)
Definition one_zone (dates : list datetime) : bool :=
  match timestamps dates with
  | [] => true
  | t :: ts => forallb (fun x => Bool.eqb (aware x) (aware t)) ts
  end.

Definition sample_to_datetime (col : list cell) : result (list datetime) :=
  match parse_dates col with
  | Ok dates =>
      if one_zone dates then Ok dates
      else Raise (ValueError "Cannot mix tz-aware with tz-naive values")
  | Raise e => Raise e
  end.

Definition sample_pandas : Pandas :=
  {| read_csv := sample_read_csv; to_datetime := sample_to_datetime |}.

(** Two iteration orders of the same sets, as two hash seeds give them. *)
Definition seed_a : SetOrder :=
  {| iter := elements; iter_perm := fun s => reflexivity (elements s) |}.

Definition seed_b : SetOrder :=
  {| iter := fun s => reverse (elements s);
     iter_perm := fun s => reverse_Permutation (elements s) |}.

Definition today : Timestamp :=
  {| year := 2026; month := 11; day := 3; time_ns := 0; utc := None |}.

Definition world (dir : list (path * file_data)) (input_lines : list string) : World :=
  {| unprocessed := dir; processed := ∅; stdin := input_lines; events := [] |}.

Definition run (seed : SetOrder) (out : option string) (w : World) : result unit * World :=
  @consolidate_csvs sample_pandas seed today out w.

(** The header of a file in [data/processed/] after a run. *)
Definition header_written (r : result unit * World) (name : path) : option (list string) :=
  columns <$> processed r.2 !! name.

(** The records of a file in [data/processed/] after a run. *)
Definition records_written (r : result unit * World) (name : path)
  : option (list (list cell)) :=
  records <$> processed r.2 !! name.

Definition a_csv : path * file_data :=
  ("a.csv", Text ["Account report"; "ID,Timestamp,Transaction Type";
                  "1,2024-01-05,deposit"; "2,2024-01-10,withdrawal"]).

Definition b_csv : path * file_data :=
  ("b.csv", Text ["ID,Timestamp,Transaction Type"; "3,2024-02-01,deposit"]).

(** A file with one more column than [a.csv]. *)
Definition fee_csv : path * file_data :=
  ("fee.csv", Text ["ID,Timestamp,Transaction Type,Fee"; "4,2024-03-01,deposit,5"]).

(** Files without the header marker. *)
Definition bad_csv : path * file_data :=
  ("bad.csv", Text ["id;timestamp;type"; "9;2024-01-01;deposit"]).

Definition worse_csv : path * file_data :=
  ("worse.csv", Text ["no header here"]).

(** A file whose only row has an empty [Timestamp]. *)
Definition null_csv : path * file_data :=
  ("null.csv", Text ["ID,Timestamp,Transaction Type"; "1,,deposit"]).



(** A file that is not a candidate, and cannot even be read. *)
Definition notes_txt : path * file_data :=
  ("notes.txt", Unreadable "Permission denied").

(** A table with a date column and a column that does not parse. *)
Definition mixed_table : DataFrame :=
  {| columns := ["Update time"; "date"];
     rows := [{["Update time" := Val "noon"; "date" := Val "2024-05-01"]}] |}.

(** The two tables of the date-naming example. *)
Definition date_table : DataFrame :=
  {| columns := ["date"];
     rows := [{["date" := Val "2024-01-05"]}; {["date" := Val "2024-01-10"]}] |}.

Definition timestamp_table : DataFrame :=
  {| columns := ["Timestamp"]; rows := [{["Timestamp" := Val "2024-02-01"]}] |}.






(** A file whose Timestamp is timezone-aware. *)
Definition zulu_csv : path * file_data :=
  ("zulu.csv", Text ["ID,Timestamp,Transaction Type"; "5,2024-02-01T00:00:00Z,deposit"]).

End Sample.

(** * Properties *)

(** ** Tables *)

Section Tables.
Implicit Types (df : DataFrame) (r : gmap string cell) (c col : string).

Lemma get_cell_absent df r c : c ∉ columns df → get_cell df r c = NA.
Proof. intros Hc. unfold get_cell. by rewrite decide_False. Qed.

Lemma get_cell_present df r c :
  c ∈ columns df → get_cell df r c = default NA (r !! c).
Proof. intros Hc. unfold get_cell. by rewrite decide_True. Qed.

Lemma project_lookup df cols r c :
  project df cols r !! c =
  if decide (c ∈ cols) then Some (get_cell df r c) else None.
Proof.
  unfold project. induction cols as [|c' cols IH].
  - rewrite fmap_nil, list_to_map_nil, lookup_empty.
    destruct (decide (c ∈ [])) as [H|]; [|done].
    by apply elem_of_nil in H.
  - rewrite fmap_cons, list_to_map_cons.
    destruct (decide (c' = c)) as [->|Hne].
    + rewrite lookup_insert_eq. destruct (decide (c ∈ c :: cols)) as [|H]; [done |].
      destruct H. by left.
    + rewrite lookup_insert_ne by done. rewrite IH.
      destruct (decide (c ∈ cols)) as [Hin|Hnin];
        destruct (decide (c ∈ c' :: cols)) as [Hin'|Hnin']; try done.
      * destruct Hnin'. by right.
      * apply elem_of_cons in Hin' as [->|Hc]; done.
Qed.

Lemma project_dom df cols r :
  dom (project df cols r) = (list_to_set cols : gset string).
Proof.
  apply set_eq; intros c. rewrite elem_of_dom, project_lookup, elem_of_list_to_set.
  destruct (decide (c ∈ cols)); split; intros H; try done.
Qed.

Lemma project_ext df1 df2 cols r1 r2 :
  (∀ c, c ∈ cols → get_cell df1 r1 c = get_cell df2 r2 c) →
  project df1 cols r1 = project df2 cols r2.
Proof.
  intros Heq. apply map_eq; intros c. rewrite !project_lookup.
  destruct (decide (c ∈ cols)); [|done]. by rewrite Heq.
Qed.

Lemma get_cell_set_column_na df r col c :
  col ∉ columns df →
  get_cell (set_column_na df col) (<[col := NA]> r) c = get_cell df r c.
Proof.
  intros Hcol. unfold get_cell at 1. simpl.
  destruct (decide (c = col)) as [->|Hne].
  - rewrite decide_True by (apply elem_of_app; right; by left).
    rewrite lookup_insert_eq. simpl. by rewrite get_cell_absent.
  - rewrite lookup_insert_ne by done. unfold get_cell.
    destruct (decide (c ∈ columns df)) as [Hin|Hnin].
    + rewrite decide_True; [done | apply elem_of_app; by left].
    + rewrite decide_False; [done |].
      intros Hc. apply elem_of_app in Hc as [Hc|Hc]; [done |].
      apply list_elem_of_singleton in Hc. done.
Qed.

Lemma elem_of_union_columns c acc dfs :
  c ∈ union_columns acc dfs ↔ c ∈ acc ∨ ∃ df, df ∈ dfs ∧ c ∈ columns df.
Proof.
  revert acc. induction dfs as [|df dfs IH]; intros acc; simpl.
  - split; [by left | intros [H|(df & H & _)]; [done | by apply elem_of_nil in H]].
  - rewrite IH, elem_of_app, list_elem_of_filter, elem_of_remove_dups. split.
    + intros [[H|[_ H]]|(df' & Hdf' & H)].
      * by left.
      * right. exists df. split; [by left | done].
      * right. exists df'. split; [by right | done].
    + intros [H|(df' & Hdf' & H)]; [by left; left |].
      apply elem_of_cons in Hdf' as [->|Hdf'].
      * destruct (decide (c ∈ acc)); [by left; left | left; right; done].
      * right. by exists df'.
Qed.

End Tables.

(** ** Padding, concatenation and reindexing *)

Section Merge.
Variable set_order : SetOrder.
Implicit Types (df : DataFrame) (H : gset string).

Lemma elem_of_set_order H c : c ∈ set_order H ↔ c ∈ H.
Proof. rewrite (iter_perm set_order H). apply elem_of_elements. Qed.

Lemma NoDup_set_order H : NoDup (set_order H).
Proof. rewrite (iter_perm set_order H). apply NoDup_elements. Qed.

Lemma pad_fold_columns (l : list string) df c :
  c ∈ columns (fold_left
      (fun df col => if decide (col ∈ columns df) then df else set_column_na df col) l df)
  ↔ c ∈ columns df ∨ c ∈ l.
Proof.
  revert df. induction l as [|col l IH]; intros df; simpl.
  - split; [by left | intros [H|H]; [done | by apply elem_of_nil in H]].
  - rewrite IH. destruct (decide (col ∈ columns df)) as [Hin|Hnin]; simpl.
    + rewrite elem_of_cons. split; [intros [?|?]; auto |].
      intros [?|[->|?]]; auto.
    + rewrite elem_of_app, list_elem_of_singleton, elem_of_cons. tauto.
Qed.

Lemma pad_fold_rows (l cols : list string) df :
  let df' := fold_left
      (fun df col => if decide (col ∈ columns df) then df else set_column_na df col) l df in
  project df' cols <$> rows df' = project df cols <$> rows df.
Proof.
  revert df. induction l as [|col l IH]; intros df; simpl; [done |].
  simpl in IH. rewrite IH. destruct (decide (col ∈ columns df)) as [Hin|Hnin]; [done |].
  simpl. rewrite <- list_fmap_compose. apply list_fmap_ext. intros _ r _. simpl.
  apply project_ext. intros c _. by apply get_cell_set_column_na.
Qed.

Lemma elem_of_columns_pad H df c :
  c ∈ columns (pad set_order H df) ↔ c ∈ columns df ∨ c ∈ H.
Proof. unfold pad. by rewrite pad_fold_columns, elem_of_set_order. Qed.

Lemma pad_rows H cols df :
  project (pad set_order H df) cols <$> rows (pad set_order H df)
  = project df cols <$> rows df.
Proof. apply pad_fold_rows. Qed.

(** The table the script builds in lines 171-174 from the padded frames:
    its columns are the final list, and each row of each file is laid out
    over that list. *)
Lemma final_table_eq H (ts : list DataFrame) :
  ts ≠ [] →
  reindex (concat (pad set_order H <$> ts)) (set_order H) =
  {| columns := set_order H;
     rows := flat_map (fun df => project df (set_order H) <$> rows df) ts |}.
Proof.
  intros Hne. unfold reindex, concat. f_equal. simpl.
  set (U := union_columns [] (pad set_order H <$> ts)).
  assert (HU : ∀ c, c ∈ set_order H → c ∈ U).
  { intros c Hc. apply elem_of_union_columns. right.
    destruct ts as [|t ts']; [done |]. exists (pad set_order H t). split.
    - rewrite fmap_cons. by left.
    - apply elem_of_columns_pad. right. by apply elem_of_set_order. }
  set (whole := {| columns := U; rows := _ |}).
  assert (Hw : columns whole = U) by done.
  clearbody whole U. clear Hne.
  induction ts as [|t ts IH]; [done |].
  rewrite fmap_cons. simpl. rewrite fmap_app, IH. f_equal.
  rewrite <- list_fmap_compose. rewrite <- (pad_rows H (set_order H) t).
  apply list_fmap_ext. intros _ r _. simpl.
  apply project_ext. intros c Hc.
  rewrite get_cell_present by (rewrite Hw; by apply HU).
  rewrite project_lookup. rewrite decide_True by (by apply HU). done.
Qed.

End Merge.

(** ** Running the script's steps *)

Lemma add_events_nil w : add_events [] w = w.
Proof. destruct w. unfold add_events. simpl. by rewrite app_nil_r. Qed.

Lemma add_events_app evs1 evs2 w :
  add_events evs2 (add_events evs1 w) = add_events (evs1 ++ evs2) w.
Proof. unfold add_events. simpl. by rewrite app_assoc. Qed.

Section Runs.
Context `{pandas : Pandas}.
Variable set_order : SetOrder.
Variable now : Timestamp.
Implicit Types (w : World) (H : gset string) (file : path).

Lemma read_csv_with_metadata_run file w :
  read_csv_with_metadata file w =
  match load (unprocessed w) file with
  | Ok df => (Ok df, w)
  | Raise e => (Raise e, add_events [Log ERROR (MsgErrorReading file e)] w)
  end.
Proof.
  unfold read_csv_with_metadata, load, try_except, bind, readlines, raise, lift, log, emit.
  destruct (lookup_file (unprocessed w) file) as [[why|lines]|]; try done.
  destruct (find_header 0 lines =? -1)%Z; [done |].
  by destruct (read_csv _).
Qed.

(** The merge loop never raises: a file that does not load is logged and
    left out, the others are padded and kept in order. *)
Lemma merge_loop_run H files dfs w :
  merge_loop set_order H files dfs w =
  (Ok (dfs ++ (pad set_order H <$> tables (unprocessed w) files)),
   add_events (merge_events (unprocessed w) files) w).
Proof.
  revert dfs w. induction files as [|f files IH]; intros dfs w.
  - simpl. unfold ret. by rewrite app_nil_r, add_events_nil.
  - cbn [merge_loop]. unfold bind at 1. unfold try_except at 1. unfold bind at 1.
    rewrite read_csv_with_metadata_run.
    unfold tables, merge_events. cbn [omap list_omap flat_map].
    fold (tables (unprocessed w) files). fold (merge_events (unprocessed w) files).
    destruct (load (unprocessed w) f) as [df|e].
    + unfold log, emit, bind, ret. rewrite IH. simpl unprocessed.
      rewrite add_events_app. rewrite fmap_cons. by rewrite <- app_assoc.
    + unfold log, emit, bind, ret. rewrite IH. simpl unprocessed.
      by rewrite !add_events_app.
Qed.

(** The header pass stops at the first file that does not load, logs it
    twice and raises; otherwise it logs nothing. *)
Lemma get_all_headers_loop_run files H d w :
  get_all_headers_loop files H d w =
  match first_failure (unprocessed w) files with
  | None => (Ok (H ∪ union_headers (unprocessed w) files,
                 header_dict (unprocessed w) files d), w)
  | Some (f, e) =>
      (Raise e, add_events [Log ERROR (MsgErrorReading f e);
                            Log ERROR (MsgErrorReadingHeaders f e)] w)
  end.
Proof.
  revert H d. induction files as [|f files IH]; intros H d.
  - simpl. unfold ret, union_headers. simpl.
    by rewrite (right_id_L ∅ (∪)).
  - cbn [get_all_headers_loop first_failure].
    unfold bind at 1. unfold try_except at 1. unfold bind at 1.
    rewrite read_csv_with_metadata_run.
    destruct (load (unprocessed w) f) as [df|e] eqn:E.
    + assert (Hc : column_set (unprocessed w) f = list_to_set (columns df))
        by (unfold column_set; by rewrite E).
      unfold ret. rewrite IH.
      destruct (first_failure (unprocessed w) files) as [[f' e']|]; [done |].
      unfold union_headers, header_dict. rewrite fmap_cons. simpl.
      by rewrite Hc, (assoc_L (∪)).
    + unfold log, emit, bind, raise. by rewrite add_events_app.
Qed.

Lemma get_all_headers_run files w :
  get_all_headers files w =
  match first_failure (unprocessed w) files with
  | None => (Ok (union_headers (unprocessed w) files,
                 header_dict (unprocessed w) files []), w)
  | Some (f, e) =>
      (Raise e, add_events [Log ERROR (MsgErrorReading f e);
                            Log ERROR (MsgErrorReadingHeaders f e)] w)
  end.
Proof.
  unfold get_all_headers. rewrite get_all_headers_loop_run.
  destruct (first_failure _ _) as [[f e]|]; [done |].
  by rewrite (left_id_L ∅ (∪)).
Qed.

(** *** The dict of headers *)

Lemma dict_get_set_eq (d : list (path * gset string)) file h :
  dict_get (dict_set d file h) file = Ok h.
Proof.
  induction d as [|[f h'] d IH]; simpl.
  - by rewrite String.eqb_refl.
  - destruct (String.eqb_spec f file) as [->|Hne]; simpl.
    + by rewrite String.eqb_refl.
    + destruct (String.eqb_spec f file); done.
Qed.

Lemma dict_get_set_ne (d : list (path * gset string)) file file' h :
  file ≠ file' → dict_get (dict_set d file h) file' = dict_get d file'.
Proof.
  intros Hne. induction d as [|[f h'] d IH]; simpl.
  - destruct (String.eqb_spec file file'); done.
  - destruct (String.eqb_spec f file) as [->|Hf]; simpl.
    + destruct (String.eqb_spec file file'); done.
    + by rewrite IH.
Qed.

Lemma dict_get_header_dict dir files d file :
  dict_get (header_dict dir files d) file =
  if decide (file ∈ files) then Ok (column_set dir file) else dict_get d file.
Proof.
  unfold header_dict. revert d. induction files as [|f files IH]; intros d.
  - simpl. destruct (decide (file ∈ [])) as [Hin|]; [by apply elem_of_nil in Hin | done].
  - simpl. rewrite IH. destruct (decide (file ∈ files)) as [Hin|Hnin].
    + rewrite decide_True; [done | by right].
    + destruct (decide (f = file)) as [->|Hne].
      * rewrite dict_get_set_eq. rewrite decide_True; [done | by left].
      * rewrite dict_get_set_ne by done. rewrite decide_False; [done |].
        intros Hc. apply elem_of_cons in Hc as [->|Hc]; done.
Qed.

Lemma elem_of_dict_set (d : list (path * gset string)) file h :
  (file, h) ∈ dict_set d file h.
Proof.
  induction d as [|[f h'] d IH]; simpl; [by left |].
  destruct (String.eqb_spec f file) as [->|Hne]; [by left | by right].
Qed.

Lemma elem_of_dict_set_other (d : list (path * gset string)) file h f' h' :
  (f', h') ∈ d → f' ≠ file → (f', h') ∈ dict_set d file h.
Proof.
  intros Hin Hne. induction d as [|[f h0] d IH]; simpl; [by apply elem_of_nil in Hin |].
  apply elem_of_cons in Hin as [Heq|Hin].
  - inversion Heq; subst. destruct (String.eqb_spec f file) as [->|_]; [done | by left].
  - destruct (String.eqb_spec f file) as [->|_]; right; [done | by apply IH].
Qed.

Lemma elem_of_dict_set_inv (d : list (path * gset string)) file h f' h' :
  (f', h') ∈ dict_set d file h → (f', h') ∈ d ∨ (f' = file ∧ h' = h).
Proof.
  induction d as [|[f h0] d IH]; simpl.
  - intros Hin. apply list_elem_of_singleton in Hin. inversion Hin. by right.
  - destruct (String.eqb_spec f file) as [->|Hne]; intros Hin.
    + apply elem_of_cons in Hin as [Heq|Hin]; [inversion Heq; by right | left; by right].
    + apply elem_of_cons in Hin as [Heq|Hin]; [left; rewrite Heq; by left |].
      destruct (IH Hin) as [?|?]; [left; by right | by right].
Qed.

(** Every file of the list has its entry in the dict. *)
Lemma elem_of_header_dict dir files d file :
  file ∈ files → (file, column_set dir file) ∈ header_dict dir files d.
Proof.
  unfold header_dict. revert d. induction files as [|f files IH]; intros d Hin.
  - by apply elem_of_nil in Hin.
  - simpl. destruct (decide (file ∈ files)) as [Hin'|Hnin]; [by apply IH |].
    apply elem_of_cons in Hin as [->|Hin]; [|done].
    clear IH. generalize (elem_of_dict_set d f (column_set dir f)).
    generalize (dict_set d f (column_set dir f)). clear d.
    induction files as [|g files IH]; intros d Hd; [done |].
    simpl. apply IH.
    + intros Hc. apply Hnin. by right.
    + apply elem_of_dict_set_other; [done |]. intros ->. apply Hnin. by left.
Qed.

(** And the dict holds nothing else. *)
Lemma elem_of_header_dict_inv dir files file h :
  (file, h) ∈ header_dict dir files [] → file ∈ files ∧ h = column_set dir file.
Proof.
  assert (Hgen : ∀ d, (file, h) ∈ header_dict dir files d →
                      (file, h) ∈ d ∨ (file ∈ files ∧ h = column_set dir file)).
  { unfold header_dict. induction files as [|f files IH]; intros d Hin; [by left |].
    simpl in Hin. destruct (IH _ Hin) as [Hd|[Hf Hh]].
    - apply elem_of_dict_set_inv in Hd as [Hd|[-> ->]]; [by left |].
      right. split; [by left | done].
    - right. split; [by right | done]. }
  intros Hin. destruct (Hgen [] Hin) as [Hd|?]; [by apply elem_of_nil in Hd | done].
Qed.

(** *** The steps of [consolidate_csvs] *)

Lemma consolidate_csvs_steps out w :
  consolidate_csvs set_order now out w =
  (csv_files <- glob_csv ;;
   match csv_files with
   | [] => log ERROR MsgNoCsvFiles
   | first :: _ =>
       log INFO (MsgFound (length csv_files)) ;;;
       try_except
         (hs <- get_all_headers csv_files ;;
          base_headers <- lift (dict_get hs.2 first) ;;
          all_headers <- reconcile hs.1 hs.2 base_headers ;;
          dfs <- merge_loop set_order all_headers csv_files [] ;;
          write_out set_order now all_headers out dfs)
         (fun e => log ERROR (MsgErrorOccurred e) ;;; raise e)
   end)%py w.
Proof.
  unfold consolidate_csvs, reconcile, write_out, bind, glob_csv, try_except.
  destruct (filter _ _) as [|first rest]; [done |].
  destruct (log INFO _ w) as [[[]|e0] w0]; [|done].
  by destruct (get_all_headers _ _) as [[[all_headers headers_by_file]|e] w'].
Qed.

Lemma warn_additional_run items base w :
  warn_additional items base w = (Ok tt, add_events (additional_warnings items base) w).
Proof.
  revert w. induction items as [|[file headers] items IH]; intros w.
  - simpl. unfold ret. by rewrite add_events_nil.
  - cbn [warn_additional additional_warnings flat_map]. unfold bind at 1. simpl.
    destruct (decide (headers ∖ base = ∅)).
    + unfold ret. by rewrite IH.
    + unfold log, emit. by rewrite IH, add_events_app.
Qed.

Lemma reconcile_run all items base w :
  reconcile all items base w =
  if decide (all ∖ base = ∅) then (Ok all, w)
  else
    match stdin w with
    | [] => (Raise EOFError, add_events (reconcile_events items base) w)
    | line :: rest =>
        if String.eqb (lower line) "y"
        then (Ok all, set_stdin rest (add_events (reconcile_events items base) w))
        else (Ok base, add_events [Log INFO MsgCommonOnly]
                         (set_stdin rest (add_events (reconcile_events items base) w)))
    end.
Proof.
  unfold reconcile. destruct (decide (all ∖ base = ∅)); [done |].
  unfold bind at 1. unfold log at 1, emit.
  unfold bind at 1. rewrite warn_additional_run.
  unfold bind at 1. unfold input, bind at 1. unfold emit.
  rewrite !add_events_app. simpl stdin.
  change ([Log WARNING MsgDifferentHeaders] ++ additional_warnings items base
            ++ [Prompt question]) with (reconcile_events items base).
  destruct (stdin w) as [|line rest]; [done |].
  destruct (String.eqb (lower line) "y"); [done |].
  by unfold bind, log, emit, ret.
Qed.

Lemma write_out_run H out (ts : list DataFrame) w :
  ts ≠ [] →
  write_out set_order now H out (pad set_order H <$> ts) w =
  match output_name now out (pad set_order H <$> ts) with
  | Ok name =>
      (Ok tt, add_events (closing_events (length ts) name (final_table set_order H ts))
                (write_file name (final_table set_order H ts) w))
  | Raise e => (Raise e, w)
  end.
Proof.
  intros Hne. unfold write_out.
  destruct (pad set_order H <$> ts) as [|d ds] eqn:E.
  { destruct ts; done. }
  rewrite <- E. rewrite (final_table_eq set_order H ts Hne).
  fold (final_table set_order H ts). unfold output_name.
  assert (Hlen : length (pad set_order H <$> ts) = length ts) by apply length_fmap.
  rewrite Hlen.
  destruct out as [name|].
  - unfold bind, ret, to_csv, log, emit. by rewrite !add_events_app.
  - unfold bind at 1. unfold lift.
    destruct (generate_date_range_filename now _) as [name|e]; [|done].
    unfold bind, ret, to_csv, log, emit. by rewrite !add_events_app.
Qed.

Lemma merge_and_write_run H out files w :
  (dfs <- merge_loop set_order H files [] ;; write_out set_order now H out dfs)%py w
  = finish set_order now H out files w.
Proof.
  unfold bind. rewrite merge_loop_run. rewrite app_nil_l. unfold finish.
  destruct (tables (unprocessed w) files) as [|t ts] eqn:E; [done |].
  by rewrite write_out_run.
Qed.

(** The whole run, step by step. *)
Lemma consolidate_csvs_run out w :
  consolidate_csvs set_order now out w =
  let dir := unprocessed w in
  match glob dir with
  | [] => (Ok tt, add_events [Log ERROR MsgNoCsvFiles] w)
  | first :: rest =>
      let files := first :: rest in
      let w0 := add_events [Log INFO (MsgFound (length files))] w in
      guard
        match first_failure dir files with
        | Some (f, e) =>
            (Raise e, add_events [Log ERROR (MsgErrorReading f e);
                                  Log ERROR (MsgErrorReadingHeaders f e)] w0)
        | None =>
            match reconcile (union_headers dir files) (header_dict dir files [])
                    (column_set dir first) w0 with
            | (Ok H, w1) => finish set_order now H out files w1
            | (Raise e, w1) => (Raise e, w1)
            end
        end
  end.
Proof.
  rewrite consolidate_csvs_steps. unfold bind at 1. unfold glob_csv.
  fold (glob (unprocessed w)). cbv zeta.
  destruct (glob (unprocessed w)) as [|first rest] eqn:Eglob; [done |].
  unfold bind at 1. unfold log at 1, emit. unfold try_except.
  unfold bind at 1. rewrite get_all_headers_run. simpl unprocessed.
  destruct (first_failure (unprocessed w) (first :: rest)) as [[f e]|] eqn:Efail.
  { unfold guard. unfold log, emit, bind, raise. done. }
  unfold bind at 1. unfold lift. cbn [fst snd].
  rewrite dict_get_header_dict. rewrite decide_True by (by left).
  unfold bind at 1.
  destruct (reconcile _ _ _ _) as [[H|e] w1] eqn:Erec.
  - rewrite merge_and_write_run. unfold guard.
    destruct (finish set_order now H out (first :: rest) w1) as [[[]|e] w2]; [done |].
    by unfold log, emit, bind, raise.
  - unfold guard. by unfold log, emit, bind, raise.
Qed.

(** *** Runs in which every file loads *)

Lemma first_failure_loads dir files :
  Forall (fun f => loads dir f = true) files → first_failure dir files = None.
Proof.
  induction 1 as [|f files Hf _ IH]; [done |]. simpl. unfold loads in Hf.
  by destruct (load dir f).
Qed.

Lemma tables_cons dir f files :
  tables dir (f :: files) =
  match load dir f with
  | Ok df => df :: tables dir files
  | Raise _ => tables dir files
  end.
Proof. unfold tables. simpl. by destruct (load dir f). Qed.

Lemma tables_loads dir files :
  Forall (fun f => loads dir f = true) files →
  length (tables dir files) = length files.
Proof.
  induction 1 as [|f files Hf _ IH]; [done |]. rewrite tables_cons.
  unfold loads in Hf. destruct (load dir f); [simpl; by rewrite IH | done].
Qed.

Lemma finish_loads H out files w :
  files ≠ [] → Forall (fun f => loads (unprocessed w) f = true) files →
  finish set_order now H out files w =
  let ts := tables (unprocessed w) files in
  let w' := add_events (merge_events (unprocessed w) files) w in
  match output_name now out (pad set_order H <$> ts) with
  | Ok name =>
      (Ok tt, add_events (closing_events (length ts) name (final_table set_order H ts))
                (write_file name (final_table set_order H ts) w'))
  | Raise e => (Raise e, w')
  end.
Proof.
  intros Hne Hall. unfold finish. pose proof (tables_loads _ _ Hall) as Hlen.
  destruct (tables (unprocessed w) files) as [|t ts]; [|done].
  destruct files; done.
Qed.

Lemma merge_events_loads dir files :
  Forall (fun f => loads dir f = true) files →
  merge_events dir files = (fun f => Log INFO (MsgSuccessfullyRead f)) <$> files.
Proof.
  induction 1 as [|f files Hf _ IH]; [done |]. unfold merge_events in *. simpl.
  unfold loads in Hf. destruct (load dir f); [simpl; by rewrite IH | done].
Qed.

Lemma elem_of_union_headers dir files c :
  c ∈ union_headers dir files ↔ ∃ f, f ∈ files ∧ c ∈ column_set dir f.
Proof.
  unfold union_headers. rewrite elem_of_union_list. split.
  - intros (X & HX & Hc). apply list_elem_of_fmap in HX as (f & -> & Hf). eauto.
  - intros (f & Hf & Hc). exists (column_set dir f). split; [|done].
    by apply list_elem_of_fmap_2.
Qed.

Lemma column_set_subseteq_union dir files f :
  f ∈ files → column_set dir f ⊆ union_headers dir files.
Proof. intros Hin c Hc. apply elem_of_union_headers. eauto. Qed.

(** The script's test [new_headers] is empty exactly when no file has a
    column outside the first file's set. *)
Lemma no_new_headers_iff dir files first :
  union_headers dir files ∖ column_set dir first = ∅ ↔
  ∀ f, f ∈ files → column_set dir f ⊆ column_set dir first.
Proof.
  split.
  - intros Hempty f Hf c Hc. destruct (decide (c ∈ column_set dir first)); [done |].
    assert (c ∈ union_headers dir files ∖ column_set dir first) as Hin.
    { apply elem_of_difference. split; [|done]. apply elem_of_union_headers. eauto. }
    rewrite Hempty in Hin. by apply not_elem_of_empty in Hin.
  - intros Hsub. apply set_eq. intros c. split; [|by intros ?%not_elem_of_empty].
    intros [Hc Hn]%elem_of_difference. apply elem_of_union_headers in Hc as (f & Hf & Hc).
    destruct Hn. by apply (Hsub f).
Qed.

Lemma union_headers_base dir files first :
  first ∈ files →
  union_headers dir files ∖ column_set dir first = ∅ →
  union_headers dir files = column_set dir first.
Proof.
  intros Hin Hempty. apply set_eq. intros c. split.
  - intros Hc. destruct (decide (c ∈ column_set dir first)); [done |].
    assert (c ∈ union_headers dir files ∖ column_set dir first) as Hd
      by (by apply elem_of_difference).
    rewrite Hempty in Hd. by apply not_elem_of_empty in Hd.
  - by apply column_set_subseteq_union.
Qed.

(** A run in which every file loads and no file has a column outside the
    first file's set: nothing is asked, and the final list is the first
    file's column set. *)
Lemma consolidate_csvs_same_schema out w first rest :
  glob (unprocessed w) = first :: rest →
  Forall (fun f => loads (unprocessed w) f = true) (first :: rest) →
  (∀ f, f ∈ first :: rest → column_set (unprocessed w) f ⊆ column_set (unprocessed w) first) →
  consolidate_csvs set_order now out w =
  let dir := unprocessed w in
  let files := first :: rest in
  let ts := tables dir files in
  let base := column_set dir first in
  let w' := add_events (Log INFO (MsgFound (length files))
                          :: ((fun f => Log INFO (MsgSuccessfullyRead f)) <$> files)) w in
  match output_name now out (pad set_order base <$> ts) with
  | Ok name =>
      (Ok tt, add_events (closing_events (length ts) name (final_table set_order base ts))
                (write_file name (final_table set_order base ts) w'))
  | Raise e => (Raise e, add_events [Log ERROR (MsgErrorOccurred e)] w')
  end.
Proof.
  intros Hglob Hall Hsub. rewrite consolidate_csvs_run. cbv zeta. rewrite Hglob.
  rewrite (first_failure_loads _ _ Hall).
  apply no_new_headers_iff in Hsub. rewrite reconcile_run.
  rewrite decide_True by done.
  rewrite (union_headers_base _ _ _ (list_elem_of_here _ _) Hsub).
  rewrite finish_loads by done. cbv zeta. simpl unprocessed.
  rewrite (merge_events_loads _ _ Hall). rewrite add_events_app.
  change ([Log INFO (MsgFound (length (first :: rest)))] ++
          ((fun f => Log INFO (MsgSuccessfullyRead f)) <$> first :: rest))
    with (Log INFO (MsgFound (length (first :: rest)))
            :: ((fun f => Log INFO (MsgSuccessfullyRead f)) <$> first :: rest)).
  by destruct (output_name now out _).
Qed.

(** A run in which every file loads, some file has a column outside the
    first file's set, and a line is there to be read: the warnings, the
    question, one line taken, and the final list by the answer. *)
Lemma consolidate_csvs_asked out w first rest line lines :
  glob (unprocessed w) = first :: rest →
  Forall (fun f => loads (unprocessed w) f = true) (first :: rest) →
  union_headers (unprocessed w) (first :: rest) ∖ column_set (unprocessed w) first ≠ ∅ →
  stdin w = line :: lines →
  consolidate_csvs set_order now out w =
  let dir := unprocessed w in
  let files := first :: rest in
  let ts := tables dir files in
  let base := column_set dir first in
  let yes := String.eqb (lower line) "y" in
  let H := if yes then union_headers dir files else base in
  let shown :=
    Log INFO (MsgFound (length files))
      :: reconcile_events (header_dict dir files []) base
      ++ (if yes then [] else [Log INFO MsgCommonOnly])
      ++ ((fun f => Log INFO (MsgSuccessfullyRead f)) <$> files) in
  match output_name now out (pad set_order H <$> ts) with
  | Ok name =>
      (Ok tt,
       {| unprocessed := dir;
          processed := <[name := final_table set_order H ts]> (processed w);
          stdin := lines;
          events := events w ++ shown
                      ++ closing_events (length ts) name (final_table set_order H ts) |})
  | Raise e =>
      (Raise e,
       {| unprocessed := dir; processed := processed w; stdin := lines;
          events := events w ++ shown ++ [Log ERROR (MsgErrorOccurred e)] |})
  end.
Proof.
  intros Hglob Hall Hdiff Hin. rewrite consolidate_csvs_run. cbv zeta. rewrite Hglob.
  rewrite (first_failure_loads _ _ Hall). rewrite reconcile_run.
  rewrite decide_False by done. simpl stdin. rewrite Hin.
  destruct (String.eqb (lower line) "y").
  - rewrite finish_loads by done. cbv zeta. simpl unprocessed.
    rewrite (merge_events_loads _ _ Hall).
    destruct (output_name now out _) as [name|e]; unfold guard, add_events, write_file, set_stdin;
      cbn [events stdin processed unprocessed]; do 2 f_equal;
      rewrite <- ?app_assoc; cbn [app]; by rewrite <- ?app_assoc.
  - rewrite finish_loads by done. cbv zeta. simpl unprocessed.
    rewrite (merge_events_loads _ _ Hall).
    destruct (output_name now out _) as [name|e]; unfold guard, add_events, write_file, set_stdin;
      cbn [events stdin processed unprocessed]; do 2 f_equal;
      rewrite <- ?app_assoc; cbn [app]; by rewrite <- ?app_assoc.
Qed.

End Runs.

(** ** The log of a run *)

Lemma new_events_app w w' evs :
  events w' = events w ++ evs → new_events w w' = evs.
Proof. intros Heq. unfold new_events. rewrite Heq. by rewrite drop_app_length. Qed.

Lemma list_to_set_remove_dups_eq (l : list string) :
  (list_to_set (remove_dups l) : gset string) = list_to_set l.
Proof.
  apply set_eq. intros c. by rewrite !elem_of_list_to_set, elem_of_remove_dups.
Qed.

Lemma quiet_successes (files : list path) :
  Forall quiet ((fun f => Log INFO (MsgSuccessfullyRead f)) <$> files).
Proof. apply Forall_fmap, Forall_forall. by intros f _. Qed.

Lemma quiet_closing n name final : Forall quiet (closing_events n name final).
Proof. unfold closing_events. by repeat constructor. Qed.

Lemma quiet_no_prompt evs text : Forall quiet evs → Prompt text ∉ evs.
Proof. intros Hq Hin. rewrite Forall_forall in Hq. by apply (Hq _ Hin). Qed.

Lemma quiet_no_warning evs m : Forall quiet evs → Log WARNING m ∉ evs.
Proof. intros Hq Hin. rewrite Forall_forall in Hq. by apply (Hq _ Hin). Qed.

(** ** Dates and the derived file name *)

Lemma lower_ascii_not_T c : Ascii.eqb (lower_ascii c) "T" = false.
Proof. by destruct c as [[] [] [] [] [] [] [] []]. Qed.

(** The sixth entry of [date_columns], "Timestamp", never matches a
    lowercased name: the names that count are the five lowercase ones. *)
Lemma capital_Timestamp_never_in_lower s : is_substring "Timestamp" (lower s) = false.
Proof.
  induction s as [|c s IH]; [done |].
  cbn [lower is_substring]. rewrite IH, orb_false_r.
  cbn [String.prefix]. destruct (ascii_dec "T" (lower_ascii c)) as [Heq|]; [|done].
  pose proof (lower_ascii_not_T c) as Hc. rewrite <- Heq in Hc. done.
Qed.

Lemma is_date_name_five col :
  is_date_name col =
  existsb (fun date_name => is_substring date_name (lower col))
          ["date"; "timestamp"; "created_at"; "datetime"; "time"].
Proof.
  unfold is_date_name, date_columns. cbn [existsb].
  by rewrite capital_Timestamp_never_in_lower, !orb_false_r.
Qed.

Lemma ts_ltb_lt a b :
  ts_ltb a b = true ↔
  (c_year (sort_key a) < c_year (sort_key b) ∨
   (c_year (sort_key a) = c_year (sort_key b) ∧
    (c_month (sort_key a) < c_month (sort_key b) ∨
     (c_month (sort_key a) = c_month (sort_key b) ∧
      (c_day (sort_key a) < c_day (sort_key b) ∨
       (c_day (sort_key a) = c_day (sort_key b) ∧
        c_ns (sort_key a) < c_ns (sort_key b)))))))%nat.
Proof.
  unfold ts_ltb, clock_ltb.
  repeat (rewrite orb_true_iff || rewrite andb_true_iff).
  rewrite !Nat.ltb_lt, !Nat.eqb_eq. tauto.
Qed.

Lemma ts_ltb_ge a b :
  ts_ltb a b = false ↔
  ¬ (c_year (sort_key a) < c_year (sort_key b) ∨
     (c_year (sort_key a) = c_year (sort_key b) ∧
      (c_month (sort_key a) < c_month (sort_key b) ∨
       (c_month (sort_key a) = c_month (sort_key b) ∧
        (c_day (sort_key a) < c_day (sort_key b) ∨
         (c_day (sort_key a) = c_day (sort_key b) ∧
          c_ns (sort_key a) < c_ns (sort_key b)))))))%nat.
Proof. rewrite <- ts_ltb_lt. by destruct (ts_ltb a b). Qed.

Lemma Forall_same_zone (x t : Timestamp) (l : list Timestamp) :
  aware x = aware t →
  Forall (fun y => aware y = aware t) l → Forall (fun y => aware y = aware x) l.
Proof.
  intros Hx Hl. eapply Forall_impl; [exact Hl |]. intros y Hy. cbn. by rewrite Hx.
Qed.

(** [min] over timestamps that can be compared returns a least element of
    the list. *)
Lemma min_from_timestamps t (l : list Timestamp) :
  Forall (fun x => aware x = aware t) l →
  ∃ lo, min_from (TS t) (TS <$> l) = Ok (TS lo) ∧ lo ∈ t :: l ∧
        ∀ x, x ∈ t :: l → ts_ltb x lo = false.
Proof.
  revert t. induction l as [|x l IH]; intros t Hzone.
  - exists t. split; [done |]. split; [by left |].
    intros x Hx. apply list_elem_of_singleton in Hx as ->.
    apply ts_ltb_ge. lia.
  - apply Forall_cons in Hzone as [Hx Hzone].
    rewrite fmap_cons. cbn [min_from dt_lt]. rewrite Hx, eqb_reflx.
    destruct (ts_ltb x t) eqn:E.
    + destruct (IH x (Forall_same_zone x t l Hx Hzone)) as (lo & Hlo & Hin & Hmin).
      exists lo. split; [done |].
      split; [by right |]. intros y Hy. apply elem_of_cons in Hy as [->|Hy]; [|by apply Hmin].
      pose proof (Hmin x (list_elem_of_here _ _)) as Hxlo.
      apply ts_ltb_lt in E. apply ts_ltb_ge in Hxlo. apply ts_ltb_ge. lia.
    + destruct (IH t Hzone) as (lo & Hlo & Hin & Hmin). exists lo. split; [done |].
      split.
      * apply elem_of_cons in Hin as [->|Hin]; [by left | right; by right].
      * intros y Hy. apply elem_of_cons in Hy as [->|Hy]; [apply Hmin; by left |].
        apply elem_of_cons in Hy as [->|Hy]; [|apply Hmin; by right].
        pose proof (Hmin t (list_elem_of_here _ _)) as Ht.
        apply ts_ltb_ge in E. apply ts_ltb_ge in Ht. apply ts_ltb_ge. lia.
Qed.

(** [max] over timestamps that can be compared returns a greatest element
    of the list. *)
Lemma max_from_timestamps t (l : list Timestamp) :
  Forall (fun x => aware x = aware t) l →
  ∃ hi, max_from (TS t) (TS <$> l) = Ok (TS hi) ∧ hi ∈ t :: l ∧
        ∀ x, x ∈ t :: l → ts_ltb hi x = false.
Proof.
  revert t. induction l as [|x l IH]; intros t Hzone.
  - exists t. split; [done |]. split; [by left |].
    intros x Hx. apply list_elem_of_singleton in Hx as ->.
    apply ts_ltb_ge. lia.
  - apply Forall_cons in Hzone as [Hx Hzone].
    rewrite fmap_cons. cbn [max_from dt_lt]. rewrite <- Hx, eqb_reflx.
    destruct (ts_ltb t x) eqn:E.
    + destruct (IH x (Forall_same_zone x t l Hx Hzone)) as (hi & Hhi & Hin & Hmax).
      exists hi. split; [done |].
      split; [by right |]. intros y Hy. apply elem_of_cons in Hy as [->|Hy]; [|by apply Hmax].
      pose proof (Hmax x (list_elem_of_here _ _)) as Hxhi.
      apply ts_ltb_lt in E. apply ts_ltb_ge in Hxhi. apply ts_ltb_ge. lia.
    + destruct (IH t Hzone) as (hi & Hhi & Hin & Hmax). exists hi. split; [done |].
      split.
      * apply elem_of_cons in Hin as [->|Hin]; [by left | right; by right].
      * intros y Hy. apply elem_of_cons in Hy as [->|Hy]; [apply Hmax; by left |].
        apply elem_of_cons in Hy as [->|Hy]; [|apply Hmax; by right].
        pose proof (Hmax t (list_elem_of_here _ _)) as Ht.
        apply ts_ltb_ge in E. apply ts_ltb_ge in Ht. apply ts_ltb_ge. lia.
Qed.

(** A timestamp of the other kind in the list makes [min] raise. *)
Lemma min_from_mismatch t (l : list Timestamp) :
  forallb (fun x => Bool.eqb (aware x) (aware t)) l = false →
  min_from (TS t) (TS <$> l) = Raise tz_mismatch.
Proof.
  revert t. induction l as [|x l IH]; intros t; [done |].
  cbn [forallb]. rewrite fmap_cons. cbn [min_from dt_lt].
  destruct (Bool.eqb (aware x) (aware t)) eqn:Ez; [|done].
  cbn [andb]. intros Hrest. apply eqb_prop in Ez.
  destruct (ts_ltb x t); [apply IH; by rewrite Ez | by apply IH].
Qed.

Section Dates.
Context `{pandas : Pandas}.
Variable now : Timestamp.

(** [get_csv_date] returns what the first yielding column yields, in the
    order of [df.columns]. *)
Lemma get_csv_date_first df :
  get_csv_date df = head (omap (column_date df) (columns df)).
Proof.
  unfold get_csv_date. induction (columns df) as [|col cols IH]; [done |].
  cbn [get_csv_date_from omap list_omap]. unfold column_date at 1.
  destruct (is_date_name col); [|done].
  destruct (to_datetime (column_values df col)) as [[|d ds]|e]; done.
Qed.

(** When no table yields a date the name is that of the current date. *)
Lemma generate_date_range_filename_fallback dfs :
  omap get_csv_date dfs = [] →
  generate_date_range_filename now dfs = Ok ("consolidated_" +:+ format_mdY now +:+ ".csv").
Proof. intros Hnone. unfold generate_date_range_filename. by rewrite Hnone. Qed.

(** When every date the tables yield is a timestamp, and the timestamps are
    all timezone-aware or all timezone-naive, the name is built from the
    earliest and the latest of them. *)
Lemma generate_date_range_filename_timestamps dfs t (l : list Timestamp) :
  omap get_csv_date dfs = TS <$> t :: l →
  Forall (fun x => aware x = aware t) l →
  ∃ lo hi, lo ∈ t :: l ∧ hi ∈ t :: l ∧
    (∀ x, x ∈ t :: l → ts_ltb x lo = false ∧ ts_ltb hi x = false) ∧
    generate_date_range_filename now dfs =
      Ok ("consolidated_" +:+ format_mdY lo +:+ "_thru_" +:+ format_mdY hi +:+ ".csv").
Proof.
  intros Hdates Hzone. unfold generate_date_range_filename. rewrite Hdates, fmap_cons.
  destruct (min_from_timestamps t l Hzone) as (lo & -> & Hlo & Hmin).
  destruct (max_from_timestamps t l Hzone) as (hi & -> & Hhi & Hmax).
  exists lo, hi. split; [done |]. split; [done |]. split; [|done].
  intros x Hx. split; [by apply Hmin | by apply Hmax].
Qed.

(** When the first date the tables yield is [NaT] (a date column holding
    nulls only), no name is built: [strftime] raises. *)
Lemma generate_date_range_filename_NaT dfs ds :
  omap get_csv_date dfs = NaT :: ds →
  generate_date_range_filename now dfs =
    Raise (ValueError "NaTType does not support strftime").
Proof.
  intros Hdates. unfold generate_date_range_filename. rewrite Hdates.
  assert (Hmin : min_from NaT ds = Ok NaT).
  { clear. induction ds as [|d ds IH]; [done |]. simpl. by destruct d. }
  assert (Hmax : max_from NaT ds = Ok NaT).
  { clear. induction ds as [|d ds IH]; [done |]. simpl. by destruct d. }
  by rewrite Hmin, Hmax.
Qed.

End Dates.

(** ** The header marker *)

Section Marker.
Context `{pandas : Pandas}.

Lemma find_header_no_marker i lines :
  has_marker lines = false → find_header i lines = (-1)%Z.
Proof.
  revert i. induction lines as [|line lines IH]; intros i Hno; [done |].
  simpl in *. apply orb_false_iff in Hno as [Hline Hrest].
  rewrite Hline. by apply IH.
Qed.

(** The loop stops at the first line that holds the marker. *)
Lemma find_header_first i lines :
  has_marker lines = true →
  ∃ pre line post,
    lines = pre ++ line :: post ∧ has_marker pre = false ∧
    is_substring marker line = true ∧
    find_header i lines = (i + Z.of_nat (length pre))%Z.
Proof.
  revert i. induction lines as [|l lines IH]; intros i Hyes; [done |].
  simpl in Hyes |- *. destruct (is_substring marker l) eqn:El.
  - exists [], l, lines. split; [done |]. split; [done |]. split; [done |]. simpl. lia.
  - destruct (IH (i + 1)%Z Hyes) as (pre & line & post & -> & Hpre & Hline & Hfind).
    exists (l :: pre), line, post. split; [done |]. split; [simpl; by rewrite El |].
    split; [done |]. rewrite Hfind. simpl length. lia.
Qed.

(** A file with the marker goes to pandas with [skiprows] the number of
    lines before its first marker line. *)
Lemma load_has_marker dir file lines :
  lookup_file dir file = Some (Text lines) → has_marker lines = true →
  ∃ pre line post,
    lines = pre ++ line :: post ∧ has_marker pre = false ∧
    is_substring marker line = true ∧
    load dir file = read_csv lines (Z.of_nat (length pre)).
Proof.
  intros Hfile Hyes. unfold load. rewrite Hfile.
  destruct (find_header_first 0 lines Hyes) as (pre & line & post & -> & Hpre & Hline & Hfind).
  exists pre, line, post. split; [done |]. split; [done |]. split; [done |].
  rewrite Hfind. destruct (0 + Z.of_nat (length pre) =? -1)%Z eqn:E; [lia |].
  by rewrite Z.add_0_l.
Qed.

Lemma load_lacks_marker dir file :
  lacks_marker dir file = true → load dir file = Raise no_headers.
Proof.
  unfold lacks_marker, load. destruct (lookup_file dir file) as [[why|lines]|]; try done.
  intros Hno%negb_true_iff. by rewrite (find_header_no_marker 0 lines Hno).
Qed.

Lemma first_failure_elem dir files f :
  f ∈ files → loads dir f = false →
  ∃ f' e, first_failure dir files = Some (f', e) ∧ f' ∈ files ∧ load dir f' = Raise e.
Proof.
  intros Hin Hf. induction files as [|g files IH]; [by apply elem_of_nil in Hin |].
  simpl. destruct (load dir g) as [df|e] eqn:E.
  - apply elem_of_cons in Hin as [->|Hin].
    + unfold loads in Hf. by rewrite E in Hf.
    + destruct (IH Hin) as (f' & e & -> & Hf' & Hl). exists f', e.
      split; [done |]. split; [by right | done].
  - exists g, e. split; [done |]. split; [by left | done].
Qed.

Lemma elem_of_tables dir files f df :
  f ∈ files → load dir f = Ok df → df ∈ tables dir files.
Proof.
  intros Hin Hl. induction files as [|g files IH]; [by apply elem_of_nil in Hin |].
  rewrite tables_cons. apply elem_of_cons in Hin as [->|Hin].
  - rewrite Hl. by left.
  - destruct (load dir g); [right |]; by apply IH.
Qed.

Lemma elem_of_merge_events_failure dir files f e :
  f ∈ files → load dir f = Raise e →
  Log ERROR (MsgErrorReading f e) ∈ merge_events dir files.
Proof.
  intros Hin Hl. unfold merge_events. apply list_elem_of_In, in_flat_map.
  exists f. split; [by apply list_elem_of_In |]. rewrite Hl. by left.
Qed.

End Marker.

(** ** Every run is one of four *)

Section Cases.
Context `{pandas : Pandas}.
Variable so : SetOrder.
Variable now : Timestamp.
Implicit Types (w : World) (out : option string).

Lemma first_failure_None dir files :
  first_failure dir files = None → Forall (fun f => loads dir f = true) files.
Proof.
  induction files as [|f files IH]; [done |]. simpl. unfold loads at 1.
  destruct (load dir f) eqn:E; [|done]. intros Hrest. apply Forall_cons.
  split; [unfold loads; by rewrite E | by apply IH].
Qed.

(** A run finds no candidate; or stops in the header pass; or cannot read
    the answer; or has every file loaded and the schema settled, and then
    writes the table or fails to name it. *)
Lemma run_cases out w :
  let dir := unprocessed w in
  let r := consolidate_csvs so now out w in
  (glob dir = [] ∧
   r = (Ok tt, outcome_world w (stdin w) (processed w) [Log ERROR MsgNoCsvFiles])) ∨
  (∃ first rest f e,
     glob dir = first :: rest ∧ first_failure dir (first :: rest) = Some (f, e) ∧
     r = (Raise e, outcome_world w (stdin w) (processed w)
                     [Log INFO (MsgFound (length (first :: rest)));
                      Log ERROR (MsgErrorReading f e);
                      Log ERROR (MsgErrorReadingHeaders f e);
                      Log ERROR (MsgErrorOccurred e)])) ∨
  (∃ first rest,
     glob dir = first :: rest ∧
     Forall (fun f => loads dir f = true) (first :: rest) ∧
     union_headers dir (first :: rest) ∖ column_set dir first ≠ ∅ ∧
     stdin w = [] ∧
     r = (Raise EOFError,
          outcome_world w [] (processed w)
            (Log INFO (MsgFound (length (first :: rest)))
               :: reconcile_events (header_dict dir (first :: rest) []) (column_set dir first)
               ++ [Log ERROR (MsgErrorOccurred EOFError)]))) ∨
  (∃ first rest H asked lines,
     glob dir = first :: rest ∧
     Forall (fun f => loads dir f = true) (first :: rest) ∧
     decided w first rest H asked lines ∧
     let ts := tables dir (first :: rest) in
     let shown :=
       Log INFO (MsgFound (length (first :: rest)))
         :: asked ++ ((fun f => Log INFO (MsgSuccessfullyRead f)) <$> first :: rest) in
     match output_name now out (pad so H <$> ts) with
     | Ok name =>
         r = (Ok tt,
              outcome_world w lines (<[name := final_table so H ts]> (processed w))
                (shown ++ closing_events (length ts) name (final_table so H ts)))
     | Raise e =>
         r = (Raise e,
              outcome_world w lines (processed w)
                (shown ++ [Log ERROR (MsgErrorOccurred e)]))
     end).
Proof.
  cbv zeta. rewrite consolidate_csvs_run. cbv zeta.
  destruct (glob (unprocessed w)) as [|first rest] eqn:Hglob; [by left |].
  destruct (first_failure (unprocessed w) (first :: rest)) as [[f e]|] eqn:Hfail.
  { right; left. exists first, rest, f, e. split; [done |]. split; [done |].
    unfold guard, outcome_world, add_events. cbn [events stdin processed unprocessed].
    by rewrite <- !app_assoc. }
  pose proof (first_failure_None _ _ Hfail) as Hall.
  rewrite reconcile_run. simpl stdin.
  destruct (decide (union_headers (unprocessed w) (first :: rest)
                      ∖ column_set (unprocessed w) first = ∅)) as [Hsame|Hdiff].
  { right; right; right.
    exists first, rest, (union_headers (unprocessed w) (first :: rest)), [], (stdin w).
    split; [done |]. split; [done |]. split; [by constructor |].
    rewrite finish_loads by done. cbv zeta. simpl unprocessed.
    rewrite (merge_events_loads _ _ Hall).
    destruct (output_name now out _) as [name|e];
      unfold guard, outcome_world, add_events, write_file;
      cbn [events stdin processed unprocessed app]; do 2 f_equal;
      rewrite <- ?app_assoc; cbn [app]; by rewrite <- ?app_assoc. }
  destruct (stdin w) as [|line lines] eqn:Hin.
  { right; right; left. exists first, rest. split; [done |]. split; [done |].
    split; [done |]. split; [done |].
    unfold guard, outcome_world, add_events. cbn [events stdin processed unprocessed].
    do 2 f_equal; [done |]. rewrite <- ?app_assoc. cbn [app]. by rewrite <- ?app_assoc. }
  right; right; right.
  destruct (String.eqb (lower line) "y") eqn:Hy.
  - exists first, rest, (union_headers (unprocessed w) (first :: rest)),
      (reconcile_events (header_dict (unprocessed w) (first :: rest) [])
         (column_set (unprocessed w) first)), lines.
    split; [done |]. split; [done |]. split; [by apply decided_yes with line |].
    rewrite finish_loads by done. cbv zeta. simpl unprocessed.
    rewrite (merge_events_loads _ _ Hall).
    destruct (output_name now out _) as [name|e];
      unfold guard, outcome_world, add_events, write_file, set_stdin;
      cbn [events stdin processed unprocessed app]; do 2 f_equal;
      rewrite <- ?app_assoc; cbn [app]; by rewrite <- ?app_assoc.
  - exists first, rest, (column_set (unprocessed w) first),
      (reconcile_events (header_dict (unprocessed w) (first :: rest) [])
         (column_set (unprocessed w) first) ++ [Log INFO MsgCommonOnly]), lines.
    split; [done |]. split; [done |]. split; [by apply decided_no with line |].
    rewrite finish_loads by done. cbv zeta. simpl unprocessed.
    rewrite (merge_events_loads _ _ Hall).
    destruct (output_name now out _) as [name|e];
      unfold guard, outcome_world, add_events, write_file, set_stdin;
      cbn [events stdin processed unprocessed app]; do 2 f_equal;
      rewrite <- ?app_assoc; cbn [app]; by rewrite <- ?app_assoc.
Qed.

End Cases.

Lemma new_events_outcome w lines files evs :
  new_events w (outcome_world w lines files evs) = evs.
Proof. by apply new_events_app. Qed.

Lemma length_final_table_rows so (H : gset string) (ts : list DataFrame) :
  length (rows (final_table so H ts)) = total_rows ts.
Proof.
  unfold final_table, total_rows. cbn [rows].
  induction ts as [|df ts IH]; [done |].
  cbn [flat_map]. rewrite length_app, length_fmap, IH. done.
Qed.

(** * The claims *)

Section Claims.
Context `{pandas : Pandas}.
Variable so : SetOrder.
Variable now : Timestamp.
Implicit Types (w : World) (out : option string).

(** What a run logs when every file loads and nothing is asked is quiet. *)
Lemma same_schema_quiet out w first rest :
  glob (unprocessed w) = first :: rest →
  Forall (fun f => loads (unprocessed w) f = true) (first :: rest) →
  (∀ f, f ∈ first :: rest →
        column_set (unprocessed w) f ⊆ column_set (unprocessed w) first) →
  let r := consolidate_csvs so now out w in
  stdin r.2 = stdin w ∧ Forall quiet (new_events w r.2).
Proof.
  intros Hglob Hall Hsub r. unfold r.
  rewrite (consolidate_csvs_same_schema so now out w first rest Hglob Hall Hsub).
  cbv zeta. destruct (output_name now out _) as [name|e]; cbn [fst snd].
  - split; [done |]. erewrite new_events_app.
    2:{ unfold add_events, write_file. cbn [events]. by rewrite <- app_assoc. }
    apply Forall_app. split; [|apply quiet_closing].
    apply Forall_cons. split; [done | apply quiet_successes].
  - split; [done |]. erewrite new_events_app.
    2:{ unfold add_events. cbn [events]. by rewrite <- app_assoc. }
    apply Forall_app. split; [|by repeat constructor].
    apply Forall_cons. split; [done | apply quiet_successes].
Qed.

(** C1, as amended.  When every candidate file loads and all have the same
    column set, the run asks nothing (no prompt is shown, no line of standard
    input is taken), and the header of the written file is the first file's
    column set in the iteration order of the Python set: a permutation of the
    first file's columns, not necessarily their order. *)
Theorem C1_same_columns_no_prompt_set_order out w first rest :
  glob (unprocessed w) = first :: rest →
  Forall (fun f => loads (unprocessed w) f = true) (first :: rest) →
  Forall (fun f => column_set (unprocessed w) f = column_set (unprocessed w) first)
         (first :: rest) →
  let r := consolidate_csvs so now out w in
  let base := column_set (unprocessed w) first in
  let ts := tables (unprocessed w) (first :: rest) in
  (stdin r.2 = stdin w ∧ ∀ text, Prompt text ∉ new_events w r.2) ∧
  (∀ name, output_name now out (pad so base <$> ts) = Ok name →
     r.1 = Ok tt ∧
     ∃ final, processed r.2 = <[name := final]> (processed w) ∧
              columns final = so base ∧
              columns final ≡ₚ remove_dups (file_columns (unprocessed w) first)).
Proof.
  intros Hglob Hall Hsame r base ts.
  assert (Hsub : ∀ f, f ∈ first :: rest →
                      column_set (unprocessed w) f ⊆ column_set (unprocessed w) first).
  { intros f Hf. rewrite Forall_forall in Hsame. by rewrite (Hsame f Hf). }
  split.
  - destruct (same_schema_quiet out w first rest Hglob Hall Hsub) as [Hin Hq].
    split; [done |]. intros text. by apply quiet_no_prompt.
  - pose proof (consolidate_csvs_same_schema so now out w first rest Hglob Hall Hsub) as Hrun.
    cbv zeta in Hrun. fold base ts r in Hrun.
    intros name Hname. rewrite Hname in Hrun. rewrite Hrun. cbn [fst snd]. split; [done |].
    exists (final_table so base ts). split; [done |]. split; [done |].
    cbn [columns final_table]. rewrite (iter_perm so base).
    unfold base, column_set, file_columns.
    rewrite Forall_forall in Hall. specialize (Hall first (list_elem_of_here _ _)).
    unfold loads in Hall. destruct (load (unprocessed w) first) as [df|]; [|done].
    rewrite <- list_to_set_remove_dups_eq.
    apply elements_list_to_set, NoDup_remove_dups.
Qed.

(** With no candidate file the run logs that and returns; nothing is read
    or written. *)
Lemma consolidate_csvs_empty out w :
  glob (unprocessed w) = [] →
  consolidate_csvs so now out w = (Ok tt, add_events [Log ERROR MsgNoCsvFiles] w).
Proof. intros Hglob. rewrite consolidate_csvs_run. cbv zeta. by rewrite Hglob. Qed.

(** A run in which some file does not load stops in the header pass. *)
Lemma consolidate_csvs_header_failure out w first rest f e :
  glob (unprocessed w) = first :: rest →
  first_failure (unprocessed w) (first :: rest) = Some (f, e) →
  consolidate_csvs so now out w =
  (Raise e, add_events [Log INFO (MsgFound (length (first :: rest)));
                        Log ERROR (MsgErrorReading f e);
                        Log ERROR (MsgErrorReadingHeaders f e);
                        Log ERROR (MsgErrorOccurred e)] w).
Proof.
  intros Hglob Hfail. rewrite consolidate_csvs_run. cbv zeta. rewrite Hglob, Hfail.
  unfold guard. by rewrite !add_events_app.
Qed.

(** C2, as amended.  When some candidate file lacks the header marker, the
    header-collection pass logs a failure and re-raises it: the run ends with
    that exception at the first file that does not load (the first in
    discovery order), after four log lines, and writes nothing, whatever the
    other files hold.  The merge loop, run on
    the same directory by itself, does not raise: it logs the failure of the
    file without the marker and keeps the padded table of every file that
    loads. *)
Theorem C2_missing_marker_aborts_run out w f :
  f ∈ glob (unprocessed w) →
  lacks_marker (unprocessed w) f = true →
  let dir := unprocessed w in
  let r := consolidate_csvs so now out w in
  (∃ f' e, first_failure dir (glob dir) = Some (f', e) ∧
           f' ∈ glob dir ∧ load dir f' = Raise e ∧ r.1 = Raise e ∧
           new_events w r.2 = [Log INFO (MsgFound (length (glob dir)));
                               Log ERROR (MsgErrorReading f' e);
                               Log ERROR (MsgErrorReadingHeaders f' e);
                               Log ERROR (MsgErrorOccurred e)]) ∧
  processed r.2 = processed w ∧ stdin r.2 = stdin w ∧
  (∀ H, let m := merge_loop so H (glob dir) [] w in
        ∃ dfs, m.1 = Ok dfs ∧
               Log ERROR (MsgErrorReading f no_headers) ∈ new_events w m.2 ∧
               ∀ g df, g ∈ glob dir → load dir g = Ok df → pad so H df ∈ dfs).
Proof.
  intros Hin Hlack dir r. subst dir.
  pose proof (load_lacks_marker (unprocessed w) f Hlack) as Hload.
  assert (Hf : loads (unprocessed w) f = false) by (unfold loads; by rewrite Hload).
  destruct (first_failure_elem (unprocessed w) (glob (unprocessed w)) f Hin Hf)
    as (f' & e & Hfail & Hf' & He).
  destruct (glob (unprocessed w)) as [|first rest] eqn:Hglob;
    [by apply elem_of_nil in Hin |].
  pose proof (consolidate_csvs_header_failure out w first rest f' e Hglob Hfail) as Hrun.
  fold r in Hrun. rewrite Hrun. cbn [fst snd].
  split; [|split; [done |split; [done |]]].
  - exists f', e. split; [done |]. split; [done |]. split; [done |]. split; [done |].
    by apply new_events_app.
  - intros H. rewrite merge_loop_run. cbn [fst snd].
    eexists. split; [done |]. split.
    + erewrite new_events_app; [|done]. by apply elem_of_merge_events_failure.
    + intros g df Hg Hdf. rewrite app_nil_l. apply list_elem_of_fmap_2.
      by apply elem_of_tables with g.
Qed.

(** C7, as amended.  When there is at least one candidate file and every
    candidate lacks the header marker, the run ends with the exception raised
    for the first candidate, re-raised out of [consolidate_csvs]; exactly four
    lines are logged, three of them the failure of that first file; the other
    files are not read and nothing about them is logged; no file is
    written. *)
Theorem C7_no_marker_anywhere_aborts_at_first out w first rest :
  glob (unprocessed w) = first :: rest →
  Forall (fun f => lacks_marker (unprocessed w) f = true) (first :: rest) →
  let r := consolidate_csvs so now out w in
  r.1 = Raise no_headers ∧
  processed r.2 = processed w ∧
  new_events w r.2 = [Log INFO (MsgFound (length (first :: rest)));
                      Log ERROR (MsgErrorReading first no_headers);
                      Log ERROR (MsgErrorReadingHeaders first no_headers);
                      Log ERROR (MsgErrorOccurred no_headers)].
Proof.
  intros Hglob Hall r.
  assert (Hfail : first_failure (unprocessed w) (first :: rest) = Some (first, no_headers)).
  { simpl. apply Forall_cons in Hall as [Hfirst _].
    by rewrite (load_lacks_marker _ _ Hfirst). }
  pose proof (consolidate_csvs_header_failure out w first rest _ _ Hglob Hfail) as Hrun.
  fold r in Hrun. rewrite Hrun. cbn [fst snd]. repeat split; try done.
  by apply new_events_app.
Qed.

(** Every row of the table laid out over the final list has exactly the
    labels of the list, and its record has one cell per column. *)
Lemma final_table_rectangular H (ts : list DataFrame) :
  let final := final_table so H ts in
  columns final = so H ∧ NoDup (columns final) ∧
  Forall (fun row : gmap string cell =>
            dom row = list_to_set (columns final) ∧
            ∀ c, c ∈ columns final → is_Some (row !! c)) (rows final) ∧
  Forall (fun rec : list cell => length rec = length (columns final)) (records final).
Proof.
  cbv zeta. cbn [columns final_table]. split; [done |]. split; [apply NoDup_set_order |].
  split.
  - apply Forall_forall. intros row Hrow. cbn [rows final_table] in Hrow.
    apply list_elem_of_In, in_flat_map in Hrow as (df & _ & Hrow).
    apply list_elem_of_In, list_elem_of_fmap in Hrow as (r0 & -> & _).
    split; [apply project_dom |]. intros c Hc. rewrite project_lookup.
    by rewrite decide_True.
  - unfold records. apply Forall_fmap, Forall_forall. intros row _. simpl.
    by rewrite length_fmap.
Qed.


(** What the schema decision of lines 135-149 returns is the union of all
    column sets or the first file's column set. *)
Lemma decided_schema_decision w first rest H asked lines :
  decided w first rest H asked lines →
  (H = union_headers (unprocessed w) (first :: rest) ∨
   H = column_set (unprocessed w) first) ∧
  ∃ w1, schema_decision w first rest = (Ok H, w1).
Proof.
  unfold schema_decision. cbv zeta. rewrite reconcile_run. simpl stdin.
  intros [Hsame|line lines' Hdiff Hin Hy|line lines' Hdiff Hin Hn].
  - split; [by left |]. rewrite decide_True by done. eauto.
  - split; [by left |]. rewrite decide_False by done. rewrite Hin, Hy. eauto.
  - split; [by right |]. rewrite decide_False by done. rewrite Hin, Hn. eauto.
Qed.

(** C3.  A run writes a file exactly when it returns with candidate files
    present; every other run leaves [data/processed/] as it was.  The table
    written has as its columns the final list, which is what the schema
    decision returned (the union of all column sets or the first file's
    column set) in iteration order, each label once; it has one row for
    every row of every candidate's table; every row has a cell under every
    label of the list and under no other, so that every record of the file
    has the same number of cells, in the order of the header. *)
Theorem C3_every_row_has_every_final_column out w :
  let dir := unprocessed w in
  let r := consolidate_csvs so now out w in
  match r.1, glob dir with
  | Ok _, first :: rest =>
      ∃ name final H w1,
        schema_decision w first rest = (Ok H, w1) ∧
        (H = union_headers dir (first :: rest) ∨ H = column_set dir first) ∧
        processed r.2 = <[name := final]> (processed w) ∧
        columns final = so H ∧ NoDup (columns final) ∧
        length (rows final) = total_rows (tables dir (first :: rest)) ∧
        Forall (fun row : gmap string cell =>
                  dom row = list_to_set (columns final) ∧
                  ∀ c, c ∈ columns final → is_Some (row !! c)) (rows final) ∧
        Forall (fun rec : list cell => length rec = length (columns final))
               (records final)
  | _, _ => processed r.2 = processed w
  end.
Proof.
  cbv zeta.
  destruct (run_cases so now out w)
    as [[Hnil ->]|[(first & rest & f & e & _ & _ & ->)
       |[(first & rest & _ & _ & _ & _ & ->)
        |(first & rest & H & asked & lines & Hglob & _ & Hdec & Hrun)]]];
    cbn [fst snd]; [by rewrite Hnil | done | done |].
  cbv zeta in Hrun. rewrite Hglob.
  destruct (output_name now out _) as [name|e]; rewrite Hrun; cbn [fst snd]; [|done].
  destruct (decided_schema_decision _ _ _ _ _ _ Hdec) as [Hchoice [w1 Hw1]].
  exists name, (final_table so H (tables (unprocessed w) (first :: rest))), H, w1.
  split; [done |]. split; [done |]. split; [done |].
  destruct (final_table_rectangular H (tables (unprocessed w) (first :: rest)))
    as (Hcols & Hnd & Hrows & Hrecs).
  split; [done |]. split; [done |]. split; [apply length_final_table_rows |].
  split; done.
Qed.

(** The per-file warnings are exactly those of the files with a column
    outside the first file's set, each with its extra columns. *)
Lemma elem_of_additional_warnings dir files base ev :
  ev ∈ additional_warnings (header_dict dir files []) base ↔
  ∃ f, f ∈ files ∧ column_set dir f ∖ base ≠ ∅ ∧
       ev = Log WARNING (MsgAdditionalHeaders f (column_set dir f ∖ base)).
Proof.
  unfold additional_warnings. rewrite list_elem_of_In, in_flat_map. split.
  - intros ([f h] & Hin & Hev). apply list_elem_of_In, elem_of_header_dict_inv in Hin
      as [Hf ->]. cbn [fst snd] in Hev.
    destruct (decide (column_set dir f ∖ base = ∅)); [done |].
    destruct Hev as [<-|[]]. by exists f.
  - intros (f & Hf & Hne & ->). exists (f, column_set dir f). split.
    + apply list_elem_of_In. by apply elem_of_header_dict.
    + cbn [fst snd]. rewrite decide_False by done. by left.
Qed.

(** The script's test [response.lower() == 'y'] holds for the answers
    "y" and "Y" and for no other line. *)
Lemma lower_is_y line : String.eqb (lower line) "y" = affirmative line.
Proof.
  unfold affirmative. destruct line as [|c [|c' rest]]; [done | |].
  - by destruct c as [[] [] [] [] [] [] [] []].
  - cbn [lower].
    change (String.eqb (String ?a (String ?b ?r)) "y") with (Ascii.eqb a "y" && false).
    change (String.eqb (String ?a (String ?b ?r)) "Y") with (Ascii.eqb a "Y" && false).
    by rewrite !andb_false_r.
Qed.

(** A run in which every file loads, some file has a column outside the
    first file's set, and standard input is at its end: the question is
    shown, [input] raises, and the run ends there. *)
Lemma consolidate_csvs_unanswered out w first rest :
  glob (unprocessed w) = first :: rest →
  Forall (fun f => loads (unprocessed w) f = true) (first :: rest) →
  union_headers (unprocessed w) (first :: rest) ∖ column_set (unprocessed w) first ≠ ∅ →
  stdin w = [] →
  consolidate_csvs so now out w =
  (Raise EOFError,
   outcome_world w [] (processed w)
     (Log INFO (MsgFound (length (first :: rest)))
        :: reconcile_events (header_dict (unprocessed w) (first :: rest) [])
             (column_set (unprocessed w) first)
        ++ [Log ERROR (MsgErrorOccurred EOFError)])).
Proof.
  intros Hglob Hall Hdiff Hin. rewrite consolidate_csvs_run. cbv zeta. rewrite Hglob.
  rewrite (first_failure_loads _ _ Hall). rewrite reconcile_run.
  rewrite decide_False by done. simpl stdin. rewrite Hin.
  unfold guard, outcome_world, add_events. cbn [events stdin processed unprocessed].
  do 2 f_equal; [done |]. rewrite <- ?app_assoc. cbn [app]. by rewrite <- ?app_assoc.
Qed.

(** C6, as amended.  When every candidate file loads and some file has a
    column that the first file lacks, the run logs the warning "Found
    different headers across files", then one warning per file with extra
    columns (exactly those files, each with its extra columns), then shows
    the question once.  With a line on standard input, that one line is
    taken: the answers "y" and "Y" make the final list the union of all
    column sets, and every other line ("yes" and the empty line among them)
    makes it the first file's column set; the file written has that list as
    its header.  With standard input at its end, [input] raises [EOFError]:
    the run logs it, raises it again and writes nothing. *)
Theorem C6_extra_columns_asked_once_y_decides out w first rest :
  glob (unprocessed w) = first :: rest →
  Forall (fun f => loads (unprocessed w) f = true) (first :: rest) →
  (∃ f c, f ∈ first :: rest ∧ c ∈ column_set (unprocessed w) f ∧
          c ∉ column_set (unprocessed w) first) →
  let dir := unprocessed w in
  let files := first :: rest in
  let r := consolidate_csvs so now out w in
  let base := column_set dir first in
  let ts := tables dir files in
  let warnings := additional_warnings (header_dict dir files []) base in
  (∀ ev, ev ∈ warnings ↔
         ∃ f, f ∈ files ∧ column_set dir f ∖ base ≠ ∅ ∧
              ev = Log WARNING (MsgAdditionalHeaders f (column_set dir f ∖ base))) ∧
  match stdin w with
  | [] =>
      r.1 = Raise EOFError ∧
      processed r.2 = processed w ∧
      new_events w r.2 =
        Log INFO (MsgFound (length files)) :: Log WARNING MsgDifferentHeaders
          :: warnings ++ [Prompt question; Log ERROR (MsgErrorOccurred EOFError)]
  | line :: lines =>
      let H := if affirmative line then union_headers dir files else base in
      (∃ later,
         new_events w r.2 =
           Log INFO (MsgFound (length files)) :: Log WARNING MsgDifferentHeaders
             :: warnings ++ Prompt question :: later ∧
         ∀ text, Prompt text ∉ later) ∧
      stdin r.2 = lines ∧
      (∀ name, output_name now out (pad so H <$> ts) = Ok name →
         r.1 = Ok tt ∧
         ∃ final, processed r.2 = <[name := final]> (processed w) ∧
                  columns final = so H)
  end.
Proof.
  intros Hglob Hall (f & c & Hf & Hc & Hnc) dir files r base ts warnings.
  assert (Hdiff : union_headers (unprocessed w) (first :: rest)
                    ∖ column_set (unprocessed w) first ≠ ∅).
  { intros Hempty. pose proof (proj1 (no_new_headers_iff _ _ _) Hempty) as Hs.
    by apply Hnc, (Hs f Hf). }
  split; [apply elem_of_additional_warnings |].
  destruct (stdin w) as [|line lines] eqn:Hin.
  { pose proof (consolidate_csvs_unanswered out w first rest Hglob Hall Hdiff Hin) as Hrun.
    fold r in Hrun. rewrite Hrun. cbn [fst snd]. split; [done |]. split; [done |].
    rewrite new_events_outcome. unfold reconcile_events. cbn [app].
    by rewrite <- app_assoc. }
  pose proof (consolidate_csvs_asked so now out w first rest line lines
                Hglob Hall Hdiff Hin) as Hrun.
  cbv zeta in Hrun. rewrite lower_is_y in Hrun. cbv zeta.
  set (H := if affirmative line then union_headers dir files else base).
  fold dir files base ts H r in Hrun.
  split; [|split].
  - destruct (output_name now out (pad so H <$> ts)) as [name|e]; rewrite Hrun; cbn [snd].
    + eexists. split.
      * apply new_events_app. cbn [events]. f_equal. unfold reconcile_events.
        cbn [app]. rewrite <- !app_assoc. cbn [app]. reflexivity.
      * intros text. apply quiet_no_prompt. apply Forall_app. split.
        { by destruct (affirmative line); repeat constructor. }
        apply Forall_app. split; [apply quiet_successes | apply quiet_closing].
    + eexists. split.
      * apply new_events_app. cbn [events]. f_equal. unfold reconcile_events.
        cbn [app]. rewrite <- !app_assoc. cbn [app]. reflexivity.
      * intros text. apply quiet_no_prompt. apply Forall_app. split.
        { by destruct (affirmative line); repeat constructor. }
        apply Forall_app. split; [apply quiet_successes | by repeat constructor].
  - destruct (output_name now out (pad so H <$> ts)) as [name|e]; by rewrite Hrun.
  - intros name Hname. rewrite Hname in Hrun. rewrite Hrun. cbn [fst snd processed].
    split; [done |]. by exists (final_table so H ts).
Qed.




(** C9.  When every candidate file loads and every file's column set is
    part of the first file's, the run logs no warning, shows no prompt and
    takes no line from standard input; the final list is the first file's
    column set; and, once the output name is known, the run succeeds and the
    table written has every row of every file laid out over that list, with
    null under each column the row's file lacks. *)
Theorem C9_subset_columns_no_warning_null_fill out w first rest :
  glob (unprocessed w) = first :: rest →
  Forall (fun f => loads (unprocessed w) f = true) (first :: rest) →
  Forall (fun f => column_set (unprocessed w) f ⊆ column_set (unprocessed w) first)
         (first :: rest) →
  let r := consolidate_csvs so now out w in
  let base := column_set (unprocessed w) first in
  let ts := tables (unprocessed w) (first :: rest) in
  (stdin r.2 = stdin w ∧
   (∀ text, Prompt text ∉ new_events w r.2) ∧
   (∀ m, Log WARNING m ∉ new_events w r.2)) ∧
  (∀ name, output_name now out (pad so base <$> ts) = Ok name →
     r.1 = Ok tt ∧
     ∃ final, processed r.2 = <[name := final]> (processed w) ∧
              columns final = so base ∧
              rows final = flat_map (fun df => project df (so base) <$> rows df) ts ∧
              ∀ df (row : gmap string cell) c,
                c ∈ base → c ∉ columns df → project df (so base) row !! c = Some NA).
Proof.
  intros Hglob Hall Hsubs r base ts.
  assert (Hsub : ∀ f, f ∈ first :: rest →
                      column_set (unprocessed w) f ⊆ column_set (unprocessed w) first).
  { intros f Hf. rewrite Forall_forall in Hsubs. by apply Hsubs. }
  split.
  - destruct (same_schema_quiet out w first rest Hglob Hall Hsub) as [Hin Hq].
    split; [done |]. split; intros x; [by apply quiet_no_prompt | by apply quiet_no_warning].
  - pose proof (consolidate_csvs_same_schema so now out w first rest Hglob Hall Hsub) as Hrun.
    cbv zeta in Hrun. fold base ts r in Hrun.
    intros name Hname. rewrite Hname in Hrun. rewrite Hrun. cbn [fst snd]. split; [done |].
    exists (final_table so base ts). split; [done |]. split; [done |]. split; [done |].
    intros df row c Hc Hdf. rewrite project_lookup.
    rewrite decide_True by (by apply elem_of_set_order). by rewrite get_cell_absent.
Qed.


End Claims.

(** ** Two runs on the same inputs (C4) *)

Section TwoRuns.
Context `{pandas : Pandas}.
Variables so1 so2 : SetOrder.
Variables now1 now2 : Timestamp.





End TwoRuns.

(** * The claims on concrete directories *)

(** ** C1 *)

(** C1 at two files with the same columns, under seed [seed_b]. *)
Lemma C1_witness :
  let r := Sample.run Sample.seed_b (Some "out.csv")
             (Sample.world [Sample.a_csv; Sample.b_csv] ["y"]) in
  stdin r.2 = ["y"] ∧ r.1 = Ok tt.
Proof.
  pose proof (@C1_same_columns_no_prompt_set_order Sample.sample_pandas Sample.seed_b
                Sample.today (Some "out.csv")
                (Sample.world [Sample.a_csv; Sample.b_csv] ["y"]) "a.csv" ["b.csv"]) as H.
  destruct H as [[Hin _] Hout].
  - reflexivity.
  - repeat constructor.
  - repeat constructor.
  - split; [exact Hin |]. destruct (Hout "out.csv" eq_refl) as [Hr _]. exact Hr.
Defined.

(** C1 as stated fails: both files have the columns ID, Timestamp,
    Transaction Type in that order, nothing is asked, and the file written
    under seed [seed_b] has them in another order. *)
Lemma C1_counterexample :
  file_columns (pandas := Sample.sample_pandas) [Sample.a_csv; Sample.b_csv] "a.csv"
    = ["ID"; "Timestamp"; "Transaction Type"] ∧
  file_columns (pandas := Sample.sample_pandas) [Sample.a_csv; Sample.b_csv] "b.csv"
    = ["ID"; "Timestamp"; "Transaction Type"] ∧
  (Sample.run Sample.seed_b (Some "out.csv")
     (Sample.world [Sample.a_csv; Sample.b_csv] [])).1 = Ok tt ∧
  Sample.header_written
    (Sample.run Sample.seed_b (Some "out.csv")
       (Sample.world [Sample.a_csv; Sample.b_csv] [])) "out.csv"
    = Some ["Transaction Type"; "Timestamp"; "ID"].
Proof. repeat split; vm_compute; reflexivity. Qed.

(** ** C2 and C7 *)

(** C2 at a directory with one good file and one without the marker. *)
Lemma C2_witness :
  let r := Sample.run Sample.seed_a (Some "out.csv")
             (Sample.world [Sample.a_csv; Sample.bad_csv] []) in
  processed r.2 = ∅ ∧ stdin r.2 = [].
Proof.
  pose proof (@C2_missing_marker_aborts_run Sample.sample_pandas Sample.seed_a
                Sample.today (Some "out.csv")
                (Sample.world [Sample.a_csv; Sample.bad_csv] []) "bad.csv") as H.
  destruct H as (_ & Hp & Hs & _).
  - right; left.
  - reflexivity.
  - split; [exact Hp | exact Hs].
Defined.

(** C2 as stated fails: [a.csv] has the marker and loads, [bad.csv] lacks
    it, and the run ends with the exception, nothing written. *)
Lemma C2_counterexample :
  loads (pandas := Sample.sample_pandas) [Sample.a_csv; Sample.bad_csv] "a.csv" = true ∧
  lacks_marker [Sample.a_csv; Sample.bad_csv] "bad.csv" = true ∧
  (Sample.run Sample.seed_a (Some "out.csv")
     (Sample.world [Sample.a_csv; Sample.bad_csv] [])).1 = Raise no_headers ∧
  processed (Sample.run Sample.seed_a (Some "out.csv")
               (Sample.world [Sample.a_csv; Sample.bad_csv] [])).2 = ∅.
Proof. repeat split; vm_compute; reflexivity. Qed.

(** C7 at a directory of two files without the marker. *)
Lemma C7_witness :
  (Sample.run Sample.seed_a None
     (Sample.world [Sample.bad_csv; Sample.worse_csv] [])).1 = Raise no_headers.
Proof.
  pose proof (@C7_no_marker_anywhere_aborts_at_first Sample.sample_pandas Sample.seed_a
                Sample.today None
                (Sample.world [Sample.bad_csv; Sample.worse_csv] [])
                "bad.csv" ["worse.csv"]) as H.
  destruct H as (Hr & _).
  - reflexivity.
  - repeat constructor.
  - exact Hr.
Defined.

(** C7 as stated fails: both files lack the marker, and the whole log of
    the run speaks of [bad.csv] only; the failure of [worse.csv] is never
    logged. *)
Lemma C7_counterexample :
  lacks_marker [Sample.bad_csv; Sample.worse_csv] "bad.csv" = true ∧
  lacks_marker [Sample.bad_csv; Sample.worse_csv] "worse.csv" = true ∧
  events (Sample.run Sample.seed_a None
            (Sample.world [Sample.bad_csv; Sample.worse_csv] [])).2 =
    [Log INFO (MsgFound 2);
     Log ERROR (MsgErrorReading "bad.csv" no_headers);
     Log ERROR (MsgErrorReadingHeaders "bad.csv" no_headers);
     Log ERROR (MsgErrorOccurred no_headers)].
Proof. repeat split; vm_compute; reflexivity. Qed.

(** ** C4 *)


(** ** C6, C8, C9 and C10 *)

(** C6 at [a.csv] and [fee.csv] (one more column, Fee), the answer "Y". *)
Lemma C6_witness :
  let r := Sample.run Sample.seed_a (Some "out")
             (Sample.world [Sample.a_csv; Sample.fee_csv] ["Y"; "more"]) in
  stdin r.2 = ["more"] ∧ r.1 = Ok tt ∧
  Sample.header_written r "out.csv" = Some ["ID"; "Fee"; "Timestamp"; "Transaction Type"].
Proof.
  pose proof (@C6_extra_columns_asked_once_y_decides Sample.sample_pandas Sample.seed_a
                Sample.today (Some "out")
                (Sample.world [Sample.a_csv; Sample.fee_csv] ["Y"; "more"])
                "a.csv" ["fee.csv"]) as H.
  destruct H as (_ & _ & Hin & Hout).
  - reflexivity.
  - repeat constructor.
  - exists "fee.csv", "Fee". split; [right; left |].
    split; [apply (bool_decide_unpack _); vm_compute; exact I |].
    apply (bool_decide_unpack _); vm_compute; exact I.
  - cbv zeta. split; [exact Hin |]. destruct (Hout "out.csv" eq_refl) as [Hr _].
    split; [exact Hr |]. vm_compute. reflexivity.
Defined.

(** C6 as stated fails twice.  [fee.csv] has the column Fee, which [a.csv]
    lacks, so the question is asked.  The answer "yes" is affirmative, and
    the file written has the first file's columns only.  With standard input
    at its end no line can be read and no schema is chosen: the run ends
    with [EOFError] and writes nothing. *)
Lemma C6_counterexample :
  file_columns (pandas := Sample.sample_pandas)
    [Sample.a_csv; Sample.fee_csv] "a.csv" = ["ID"; "Timestamp"; "Transaction Type"] ∧
  file_columns (pandas := Sample.sample_pandas)
    [Sample.a_csv; Sample.fee_csv] "fee.csv"
    = ["ID"; "Timestamp"; "Transaction Type"; "Fee"] ∧
  Sample.header_written
    (Sample.run Sample.seed_a (Some "out")
       (Sample.world [Sample.a_csv; Sample.fee_csv] ["yes"])) "out.csv"
    = Some ["ID"; "Timestamp"; "Transaction Type"] ∧
  (Sample.run Sample.seed_a (Some "out")
     (Sample.world [Sample.a_csv; Sample.fee_csv] [])).1 = Raise EOFError ∧
  processed (Sample.run Sample.seed_a (Some "out")
               (Sample.world [Sample.a_csv; Sample.fee_csv] [])).2 = ∅.
Proof. repeat split; vm_compute; reflexivity. Qed.

(** The answers "y" and "Y" keep the extra column; "yes", "n" and the empty
    line do not. *)
Example answers_at_the_prompt :
  let header answer :=
    Sample.header_written
      (Sample.run Sample.seed_a (Some "out")
         (Sample.world [Sample.a_csv; Sample.fee_csv] [answer])) "out.csv" in
  header "y" = Some ["ID"; "Fee"; "Timestamp"; "Transaction Type"] ∧
  header "Y" = Some ["ID"; "Fee"; "Timestamp"; "Transaction Type"] ∧
  header "yes" = Some ["ID"; "Timestamp"; "Transaction Type"] ∧
  header "n" = Some ["ID"; "Timestamp"; "Transaction Type"] ∧
  header "" = Some ["ID"; "Timestamp"; "Transaction Type"].
Proof. repeat split; vm_compute; reflexivity. Qed.

(** At the end of standard input the question cannot be answered:
    [input] raises, the run ends with [EOFError], nothing is written. *)
Example prompt_at_end_of_input :
  let r := Sample.run Sample.seed_a (Some "out")
             (Sample.world [Sample.a_csv; Sample.fee_csv] []) in
  r.1 = Raise EOFError ∧ processed r.2 = ∅.
Proof. split; vm_compute; reflexivity. Qed.


(** C9 at [fee.csv] first and [a.csv], which lacks the column Fee. *)
Lemma C9_witness :
  let r := Sample.run Sample.seed_a (Some "out")
             (Sample.world [Sample.fee_csv; Sample.a_csv] ["y"]) in
  stdin r.2 = ["y"] ∧ r.1 = Ok tt.
Proof.
  pose proof (@C9_subset_columns_no_warning_null_fill Sample.sample_pandas Sample.seed_a
                Sample.today (Some "out")
                (Sample.world [Sample.fee_csv; Sample.a_csv] ["y"])
                "fee.csv" ["a.csv"]) as H.
  destruct H as ((Hin & _) & Hout).
  - reflexivity.
  - repeat constructor.
  - apply (bool_decide_unpack _). vm_compute. exact I.
  - split; [exact Hin |]. destruct (Hout "out.csv" eq_refl) as [Hr _]. exact Hr.
Defined.

(** The file written in that run: the rows of [a.csv] have a null under
    Fee. *)
Example missing_column_filled_with_nulls :
  Sample.records_written
    (Sample.run Sample.seed_a (Some "out")
       (Sample.world [Sample.fee_csv; Sample.a_csv] ["y"])) "out.csv"
  = Some [[Val "4"; Val "5"; Val "2024-03-01"; Val "deposit"];
          [Val "1"; NA; Val "2024-01-05"; Val "deposit"];
          [Val "2"; NA; Val "2024-01-10"; Val "withdrawal"]].
Proof. vm_compute. reflexivity. Qed.


(** ** C5 *)

(** The date-naming example of the specification, on its two tables. *)
Example date_naming_example :
  generate_date_range_filename (pandas := Sample.sample_pandas) Sample.today
    [Sample.date_table; Sample.timestamp_table]
  = Ok "consolidated_01-05-2024_thru_02-01-2024.csv".
Proof. vm_compute. reflexivity. Qed.

(** The same name from a run without an output name: [a.csv] holds
    2024-01-05 and 2024-01-10, [b.csv] holds 2024-02-01. *)
Example date_naming_run :
  let r := Sample.run Sample.seed_a None (Sample.world [Sample.a_csv; Sample.b_csv] []) in
  r.1 = Ok tt ∧
  Sample.header_written r "consolidated_01-05-2024_thru_02-01-2024.csv"
    = Some ["ID"; "Timestamp"; "Transaction Type"].
Proof. split; vm_compute; reflexivity. Qed.

(** With no date-like column the name is that of the current date. *)
Example date_naming_fallback :
  generate_date_range_filename (pandas := Sample.sample_pandas) Sample.today
    [{| columns := ["ID"]; rows := [{["ID" := Val "1"]}] |}]
  = Ok "consolidated_11-03-2026.csv".
Proof. vm_compute. reflexivity. Qed.

(** Timezone-naive dates in one file and a timezone-aware date in another
    cannot be compared: [min] raises, the run ends with [TypeError] and
    nothing is written. *)
Example date_naming_mixed_zones :
  let r := Sample.run Sample.seed_a None
             (Sample.world [Sample.a_csv; Sample.zulu_csv] []) in
  r.1 = Raise tz_mismatch ∧ processed r.2 = ∅.
Proof. split; vm_compute; reflexivity. Qed.

(** C5 fails on the code at a file whose Timestamp column holds nulls
    only.  The column parses (to [NaT]), so [get_csv_date] returns [NaT]
    rather than [None]; no fallback is taken, [strftime] raises, and the run
    ends with that exception after reading the file, nothing written. *)
Theorem C5_null_dates_abort_without_fallback :
  let r := Sample.run Sample.seed_a None (Sample.world [Sample.null_csv] []) in
  file_column (pandas := Sample.sample_pandas) [Sample.null_csv] "null.csv" "Timestamp"
    = [NA] ∧
  (get_csv_date (pandas := Sample.sample_pandas) <$>
     tables (pandas := Sample.sample_pandas) [Sample.null_csv] ["null.csv"])
    = [Some NaT] ∧
  r.1 = Raise (ValueError "NaTType does not support strftime") ∧
  processed r.2 = ∅ ∧
  events r.2 =
    [Log INFO (MsgFound 1); Log INFO (MsgSuccessfullyRead "null.csv");
     Log ERROR (MsgErrorOccurred (ValueError "NaTType does not support strftime"))].
Proof. repeat split; vm_compute; reflexivity. Qed.

(** * Further properties of the script *)

(** ** Reading one file *)

Section ReadOne.
Context `{pandas : Pandas}.
Implicit Types (w : World) (file : path).

(** X1.  A file with the marker goes to pandas as it is, with [skiprows]
    the number of lines before the first line that contains the marker (the
    marker may stand anywhere in that line).  What pandas returns is
    returned and nothing is logged; when pandas raises, that exception is
    logged once and raised again. *)
Theorem read_csv_with_metadata_skiprows_at_first_marker file w lines :
  lookup_file (unprocessed w) file = Some (Text lines) →
  has_marker lines = true →
  ∃ pre line post,
    lines = pre ++ line :: post ∧
    has_marker pre = false ∧
    is_substring marker line = true ∧
    read_csv_with_metadata file w =
      match read_csv lines (Z.of_nat (length pre)) with
      | Ok df => (Ok df, w)
      | Raise e => (Raise e, add_events [Log ERROR (MsgErrorReading file e)] w)
      end.
Proof.
  intros Hfile Hyes.
  destruct (load_has_marker (unprocessed w) file lines Hfile Hyes)
    as (pre & line & post & Hlines & Hpre & Hline & Hload).
  exists pre, line, post. split; [done |]. split; [done |]. split; [done |].
  by rewrite read_csv_with_metadata_run, Hload.
Qed.

(** X2.  A file that cannot be opened, or is not there, or has no line with the
    marker, makes [read_csv_with_metadata] log one error line and raise:
    [OSError] in the first two cases, [ValueError] ("Could not find CSV
    headers") in the third, in which pandas is not called at all. *)
Theorem read_csv_with_metadata_failures file w :
  let r := read_csv_with_metadata file w in
  match lookup_file (unprocessed w) file with
  | None =>
      r = (Raise (OSError "No such file or directory"),
           add_events [Log ERROR (MsgErrorReading file
                                    (OSError "No such file or directory"))] w)
  | Some (Unreadable why) =>
      r = (Raise (OSError why),
           add_events [Log ERROR (MsgErrorReading file (OSError why))] w)
  | Some (Text lines) =>
      if has_marker lines then True
      else r = (Raise no_headers,
                add_events [Log ERROR (MsgErrorReading file no_headers)] w)
  end.
Proof.
  cbv zeta. rewrite read_csv_with_metadata_run. unfold load.
  destruct (lookup_file (unprocessed w) file) as [[why|lines]|]; try done.
  destruct (has_marker lines) eqn:Hno; [done |].
  by rewrite (find_header_no_marker 0 lines Hno).
Qed.

End ReadOne.

(** ** The header pass and the empty directory *)

Section HeaderPass.
Context `{pandas : Pandas}.
Variable so : SetOrder.
Variable now : Timestamp.
Implicit Types (w : World) (out : option string).

(** X3.  When every file of the list loads, [get_all_headers] returns, logs
    nothing and leaves the world as it was; [all_headers] holds exactly the
    labels that are a column of some file; [headers_by_file] has, under each
    file of the list, that file's column set, and nothing else. *)
Theorem get_all_headers_collects_every_file files w :
  Forall (fun f => loads (unprocessed w) f = true) files →
  ∃ all_headers headers_by_file,
    get_all_headers files w = (Ok (all_headers, headers_by_file), w) ∧
    (∀ c, c ∈ all_headers ↔
          ∃ f df, f ∈ files ∧ load (unprocessed w) f = Ok df ∧ c ∈ columns df) ∧
    (∀ f, f ∈ files →
          dict_get headers_by_file f = Ok (column_set (unprocessed w) f)) ∧
    (∀ f h, (f, h) ∈ headers_by_file →
            f ∈ files ∧ h = column_set (unprocessed w) f).
Proof.
  intros Hall. eexists _, _. split.
  { rewrite get_all_headers_run. by rewrite (first_failure_loads _ _ Hall). }
  split; [|split].
  - intros c. rewrite elem_of_union_headers. split.
    + intros (f & Hf & Hc). rewrite Forall_forall in Hall. specialize (Hall f Hf).
      unfold loads in Hall. unfold column_set in Hc.
      destruct (load (unprocessed w) f) as [df|] eqn:E; [|done].
      exists f, df. split; [done |]. split; [done |]. by apply elem_of_list_to_set in Hc.
    + intros (f & df & Hf & Hload & Hc). exists f. split; [done |].
      unfold column_set. rewrite Hload. by apply elem_of_list_to_set.
  - intros f Hf. rewrite dict_get_header_dict. by rewrite decide_True.
  - intros f h. apply elem_of_header_dict_inv.
Qed.

Lemma glob_nil dir :
  Forall (fun f => endswith f ".csv" = false) dir.*1 → glob dir = [].
Proof.
  unfold glob. induction 1 as [|f fs Hf _ IH]; [done |].
  rewrite filter_cons. rewrite decide_False; [done |]. by rewrite Hf.
Qed.

(** X4.  When no name in [data/unprocessed/] ends in ".csv", the run logs "No
    CSV files found" and returns; no file is opened, whatever it is, nothing
    is asked and nothing is written. *)
Theorem no_candidate_no_run out w :
  Forall (fun f => endswith f ".csv" = false) (unprocessed w).*1 →
  consolidate_csvs so now out w = (Ok tt, add_events [Log ERROR MsgNoCsvFiles] w).
Proof. intros Hnone. apply consolidate_csvs_empty. by apply glob_nil. Qed.

End HeaderPass.

(** ** What a run can and cannot do *)

Lemma prompts_app evs1 evs2 : prompts (evs1 ++ evs2) = prompts evs1 ++ prompts evs2.
Proof. unfold prompts. apply omap_app. Qed.

Lemma prompts_additional_warnings items base :
  prompts (additional_warnings items base) = [].
Proof.
  unfold additional_warnings. induction items as [|[f h] items IH]; [done |].
  cbn [flat_map]. rewrite prompts_app, IH. cbn [fst snd].
  by destruct (decide (h ∖ base = ∅)).
Qed.

Lemma prompts_reconcile_events items base :
  prompts (reconcile_events items base) = [question].
Proof.
  unfold reconcile_events. change (prompts (?e :: ?l)) with (prompts ([e] ++ l)).
  by rewrite !prompts_app, prompts_additional_warnings.
Qed.

Lemma prompts_successes (files : list path) :
  prompts ((fun f => Log INFO (MsgSuccessfullyRead f)) <$> files) = [].
Proof. by induction files. Qed.

Lemma endswith_append (s suffix : string) : endswith (s +:+ suffix) suffix = true.
Proof.
  unfold endswith.
  assert (Hlen : String.length (s +:+ suffix) = String.length s + String.length suffix).
  { induction s as [|c s IH]; [done |]. simpl. by rewrite IH. }
  rewrite Hlen. replace (String.length s + String.length suffix - String.length suffix)
    with (String.length s) by lia.
  apply andb_true_iff. split; [apply Nat.leb_le; lia |].
  apply String.eqb_eq. clear Hlen. induction s as [|c s IH]; [|done].
  change ("" +:+ suffix) with suffix. change (String.length "") with 0.
  induction suffix as [|c suffix IH]; [done |]. simpl. by rewrite IH.
Qed.

Lemma append_assoc (a b c : string) : a +:+ (b +:+ c) = (a +:+ b) +:+ c.
Proof.
  induction a as [|x a IH]; [done |].
  change (String x (a +:+ (b +:+ c)) = String x ((a +:+ b) +:+ c)). by rewrite IH.
Qed.

Lemma prefix_append (s t : string) : String.prefix s (s +:+ t) = true.
Proof.
  induction s as [|c s IH]; [by destruct t |].
  change (String c s +:+ t) with (String c (s +:+ t)). cbn [String.prefix].
  by destruct (ascii_dec c c).
Qed.

Section RunOutcomes.
Context `{pandas : Pandas}.
Variable so : SetOrder.
Variable now : Timestamp.
Implicit Types (w : World) (out : option string).

Lemma decided_prompts w first rest H asked lines :
  decided w first rest H asked lines →
  (prompts asked = [] ∧ lines = stdin w) ∨
  (prompts asked = [question] ∧ lines = tail (stdin w)).
Proof.
  intros [Hsame|line lines' Hdiff Hin Hy|line lines' Hdiff Hin Hn].
  - by left.
  - right. rewrite prompts_reconcile_events, Hin. done.
  - right. rewrite prompts_app, prompts_reconcile_events, Hin. done.
Qed.

(** X5.  A run asks at most one question: either no prompt is shown and standard
    input is left as it was, or the prompt of line 146 is shown once and
    exactly the first line of standard input (if there is one) is consumed. *)
Theorem at_most_one_question out w :
  let r := consolidate_csvs so now out w in
  (prompts (new_events w r.2) = [] ∧ stdin r.2 = stdin w) ∨
  (prompts (new_events w r.2) = [question] ∧ stdin r.2 = tail (stdin w)).
Proof.
  cbv zeta.
  destruct (run_cases so now out w)
    as [[_ ->]|[(first & rest & f & e & _ & _ & ->)
       |[(first & rest & _ & _ & _ & Hin & ->)
        |(first & rest & H & asked & lines & _ & _ & Hdec & Hrun)]]];
    cbn [snd]; rewrite ?new_events_outcome.
  - by left.
  - by left.
  - right. rewrite Hin. split; [|done].
    change (prompts (?e :: ?l)) with (prompts ([e] ++ l)).
    by rewrite !prompts_app, prompts_reconcile_events.
  - cbv zeta in Hrun.
    assert (Hshown : ∀ tl, prompts tl = [] →
              prompts (Log INFO (MsgFound (length (first :: rest)))
                         :: asked ++ ((fun f => Log INFO (MsgSuccessfullyRead f))
                                        <$> first :: rest) ++ tl) = prompts asked).
    { intros tl Htl. change (prompts (?e :: ?l)) with (prompts ([e] ++ l)).
      rewrite !prompts_app, prompts_successes, Htl. cbn [prompts omap list_omap app].
      by rewrite app_nil_r. }
    destruct (output_name now out _) as [name|e]; rewrite Hrun; cbn [snd];
      rewrite new_events_outcome; cbn [stdin outcome_world];
      rewrite <- app_comm_cons, <- app_assoc, Hshown by done;
      destruct (decided_prompts _ _ _ _ _ _ Hdec) as [[-> ->]|[-> ->]]; auto.
Qed.


(** X7.  A run that returns with candidate files present has written exactly
    one file.  Its last three log lines report the number of candidate files
    (all of them were merged), the number of rows written, which is the sum
    of the rows of the candidates' tables (no row is dropped or repeated),
    and the number of columns of the file. *)
Theorem returning_run_reports_totals out w :
  let dir := unprocessed w in
  let r := consolidate_csvs so now out w in
  glob dir ≠ [] → r.1 = Ok tt →
  ∃ name final earlier,
    processed r.2 = <[name := final]> (processed w) ∧
    length (rows final) = total_rows (tables dir (glob dir)) ∧
    length (tables dir (glob dir)) = length (glob dir) ∧
    new_events w r.2 =
      earlier ++ [Log INFO (MsgConsolidated (length (glob dir)) name);
                  Log INFO (MsgTotalRows (length (rows final)));
                  Log INFO (MsgTotalColumns (length (columns final)))].
Proof.
  cbv zeta. intros Hne.
  destruct (run_cases so now out w)
    as [[Hnil _]|[(first & rest & f & e & _ & _ & ->)
       |[(first & rest & _ & _ & _ & _ & ->)
        |(first & rest & H & asked & lines & Hglob & Hall & _ & Hrun)]]];
    cbn [fst snd]; try done.
  cbv zeta in Hrun. destruct (output_name now out _) as [name|e];
    rewrite Hrun; cbn [fst snd]; [intros _ | done].
  rewrite new_events_outcome, Hglob. eexists name, _, _.
  split; [done |]. split; [apply length_final_table_rows |].
  split; [by apply tables_loads |].
  unfold closing_events. by rewrite (tables_loads _ _ Hall).
Qed.

Lemma output_name_shape out dfs name :
  output_name now out dfs = Ok name →
  endswith name ".csv" = true ∧
  match out with
  | Some given => name = if endswith given ".csv" then given else given +:+ ".csv"
  | None => String.prefix "consolidated_" name = true
  end.
Proof.
  destruct out as [given|]; cbn [output_name].
  - intros [= <-]. split; [|done].
    destruct (endswith given ".csv") eqn:E; [done | apply endswith_append].
  - unfold generate_date_range_filename.
    destruct (omap get_csv_date dfs) as [|d ds].
    + intros [= <-]. split; [|apply prefix_append].
      rewrite append_assoc. apply endswith_append.
    + destruct (min_from d ds) as [earliest|]; [|done].
      destruct (max_from d ds) as [latest|]; [|done].
      destruct (strftime earliest) as [a|]; [|done].
      destruct (strftime latest) as [b|]; [|done].
      intros [= <-]. split; [|apply prefix_append].
      rewrite !append_assoc. apply endswith_append.
Qed.

(** X8.  Whatever a run writes, it writes under a name that ends in ".csv": a
    given name as it is when it ends in ".csv" already, with ".csv" appended
    otherwise (lines 179-180), and a derived name starting with
    "consolidated_". *)
Theorem output_name_ends_in_csv out w :
  let r := consolidate_csvs so now out w in
  processed r.2 = processed w ∨
  ∃ name final,
    processed r.2 = <[name := final]> (processed w) ∧
    endswith name ".csv" = true ∧
    match out with
    | Some given => name = if endswith given ".csv" then given else given +:+ ".csv"
    | None => String.prefix "consolidated_" name = true
    end.
Proof.
  cbv zeta.
  destruct (run_cases so now out w)
    as [[_ ->]|[(first & rest & f & e & _ & _ & ->)
       |[(first & rest & _ & _ & _ & _ & ->)
        |(first & rest & H & asked & lines & _ & _ & _ & Hrun)]]];
    cbn [snd]; try by left.
  cbv zeta in Hrun. destruct (output_name now out _) as [name|e] eqn:Hname;
    rewrite Hrun; cbn [snd processed outcome_world]; [right | by left].
  eexists name, _. split; [done |]. by apply output_name_shape in Hname.
Qed.

Lemma Forall_not_no_valid_warnings items base :
  Forall (fun ev => ev ≠ Log ERROR MsgNoValid) (additional_warnings items base).
Proof.
  unfold additional_warnings. induction items as [|[f h] items IH]; [constructor |].
  cbn [flat_map]. apply Forall_app. split; [|done]. cbn [fst snd].
  destruct (decide (h ∖ base = ∅)); repeat constructor; done.
Qed.

(** X9.  With the input files unchanged while the script runs, the line "No
    valid CSV files could be read" of lines 166-168 is never logged: a file
    that does not load has stopped the run in the header pass before the
    merge loop starts. *)
Theorem no_valid_branch_never_taken out w :
  let r := consolidate_csvs so now out w in
  Forall (fun ev => ev ≠ Log ERROR MsgNoValid) (new_events w r.2).
Proof.
  cbv zeta.
  assert (Hrec : ∀ items base,
            Forall (fun ev => ev ≠ Log ERROR MsgNoValid) (reconcile_events items base)).
  { intros items base. unfold reconcile_events. constructor; [done |].
    apply Forall_app. split; [apply Forall_not_no_valid_warnings |].
    by repeat constructor. }
  destruct (run_cases so now out w)
    as [[_ ->]|[(first & rest & f & e & _ & _ & ->)
       |[(first & rest & _ & _ & _ & _ & ->)
        |(first & rest & H & asked & lines & _ & _ & Hdec & Hrun)]]];
    cbn [snd]; rewrite ?new_events_outcome.
  - by repeat constructor.
  - by repeat constructor.
  - constructor; [done |]. apply Forall_app. split; [apply Hrec | by repeat constructor].
  - cbv zeta in Hrun.
    assert (Hasked : Forall (fun ev => ev ≠ Log ERROR MsgNoValid) asked).
    { destruct Hdec; [constructor | apply Hrec |].
      apply Forall_app. split; [apply Hrec | by repeat constructor]. }
    assert (Hread : Forall (fun ev => ev ≠ Log ERROR MsgNoValid)
                      ((fun f => Log INFO (MsgSuccessfullyRead f)) <$> first :: rest)).
    { apply Forall_fmap, Forall_forall. by intros f _. }
    destruct (output_name now out _) as [name|e]; rewrite Hrun; cbn [snd];
      rewrite new_events_outcome;
      (apply Forall_app; split;
        [constructor; [done |]; apply Forall_app; by split
        | by repeat constructor]).
Qed.

End RunOutcomes.

(** ** Date columns *)

Lemma prefix_spec (s h : string) :
  String.prefix s h = true ↔ ∃ post, h = s +:+ post.
Proof.
  revert h. induction s as [|c s IH]; intros h.
  - split; [intros _; by exists h | intros _; by destruct h].
  - destruct h as [|c' h]; cbn [String.prefix].
    + split; [done | intros [post Hpost]; done].
    + destruct (ascii_dec c c') as [->|Hne].
      * rewrite IH. split; intros [post Hpost]; exists post.
        -- by rewrite Hpost.
        -- change (String c' s +:+ post) with (String c' (s +:+ post)) in Hpost.
           by injection Hpost.
      * split; [done | intros [post Hpost]].
        change (String c s +:+ post) with (String c (s +:+ post)) in Hpost.
        injection Hpost as ? ?. by subst.
Qed.

(** [needle in hay] holds exactly when [hay] is some text, then [needle],
    then some text. *)
Lemma is_substring_spec (needle hay : string) :
  is_substring needle hay = true ↔ ∃ pre post, hay = pre +:+ needle +:+ post.
Proof.
  induction hay as [|c hay IH].
  - cbn [is_substring]. rewrite orb_false_r, prefix_spec. split.
    + intros [post Hpost]. by exists "", post.
    + intros (pre & post & Hh). destruct pre as [|c pre]; [by exists post |].
      change (String c pre +:+ needle +:+ post)
        with (String c (pre +:+ needle +:+ post)) in Hh. done.
  - cbn [is_substring]. rewrite orb_true_iff, prefix_spec, IH. split.
    + intros [[post Hpost]|(pre & post & Hh)].
      * by exists "", post.
      * exists (String c pre), post. by rewrite Hh.
    + intros (pre & post & Hh). destruct pre as [|c' pre].
      * left. by exists post.
      * right. exists pre, post.
        change (String c' pre +:+ needle +:+ post)
          with (String c' (pre +:+ needle +:+ post)) in Hh. by injection Hh.
Qed.

Lemma is_substring_trans (a b s : string) :
  is_substring a b = true → is_substring b s = true → is_substring a s = true.
Proof.
  rewrite !is_substring_spec. intros (p1 & q1 & ->) (p2 & q2 & ->).
  exists (p2 +:+ p1), (q1 +:+ q2). by rewrite <- !append_assoc.
Qed.

Section DateColumns.
Context `{pandas : Pandas}.
Variable so : SetOrder.
Variable now : Timestamp.
Implicit Types (df : DataFrame) (H : gset string).

(** X10.  Of the six entries of [date_columns] three decide: a column counts as a
    date column exactly when its lowercased name contains "date", "time" or
    "created_at".  ("timestamp" and "datetime" contain one of these, and
    "Timestamp" never occurs in a lowercased name.) *)
Theorem is_date_name_three_words col :
  is_date_name col =
  is_substring "date" (lower col) || is_substring "time" (lower col)
  || is_substring "created_at" (lower col).
Proof.
  rewrite is_date_name_five. cbn [existsb].
  destruct (is_substring "timestamp" (lower col)) eqn:Hts.
  { rewrite (is_substring_trans "time" "timestamp" _ eq_refl Hts).
    by rewrite !orb_true_r. }
  destruct (is_substring "datetime" (lower col)) eqn:Hdt.
  { by rewrite (is_substring_trans "date" "datetime" _ eq_refl Hdt). }
  by destruct (is_substring "date" (lower col)), (is_substring "time" (lower col)),
       (is_substring "created_at" (lower col)).
Qed.

Lemma series_min_NaT dates : series_min dates = NaT → Forall (fun d => d = NaT) dates.
Proof.
  induction dates as [|[|t] dates IH]; [constructor | |].
  - intros Hmin. constructor; [done | by apply IH].
  - simpl. destruct (series_min dates) as [|u]; [done |]. by destruct (ts_ltb u t).
Qed.

Lemma series_min_TS dates t :
  series_min dates = TS t →
  TS t ∈ dates ∧ ∀ u, TS u ∈ dates → ts_ltb u t = false.
Proof.
  revert t. induction dates as [|[|x] dates IH]; intros t; [done | |].
  - simpl. intros Hmin. destruct (IH t Hmin) as [Hin Hle]. split; [by right |].
    intros u Hu. apply elem_of_cons in Hu as [Hu|Hu]; [done | by apply Hle].
  - simpl. destruct (series_min dates) as [|u] eqn:Hrest.
    + intros [= <-]. split; [by left |]. intros u Hu.
      apply elem_of_cons in Hu as [[= ->]|Hu]; [apply ts_ltb_ge; lia |].
      apply series_min_NaT in Hrest. rewrite Forall_forall in Hrest.
      by specialize (Hrest _ Hu).
    + destruct (IH u eq_refl) as [Hin Hle].
      destruct (ts_ltb u x) eqn:E; intros [= <-].
      * split; [by right |]. intros v Hv.
        apply elem_of_cons in Hv as [[= ->]|Hv]; [|by apply Hle].
        apply ts_ltb_lt in E. apply ts_ltb_ge. lia.
      * split; [by left |]. intros v Hv.
        apply elem_of_cons in Hv as [[= ->]|Hv]; [apply ts_ltb_ge; lia |].
        specialize (Hle v Hv). apply ts_ltb_ge in E. apply ts_ltb_ge in Hle.
        apply ts_ltb_ge. lia.
Qed.

(** X11.  What [get_csv_date] returns comes from the first column, in the order of
    [df.columns], that has a date name, parses and is not empty; columns
    before it that do not parse are passed over.  A timestamp returned is an
    entry of that column and no entry is earlier; [NaT] is returned when all
    of that column is null. *)
Theorem get_csv_date_earliest_of_first_date_column df d :
  get_csv_date df = Some d →
  ∃ before col after dates,
    columns df = before ++ col :: after ∧
    Forall (fun c => column_date df c = None) before ∧
    is_date_name col = true ∧
    to_datetime (column_values df col) = Ok dates ∧
    dates ≠ [] ∧
    match d with
    | TS t => TS t ∈ dates ∧ ∀ u, TS u ∈ dates → ts_ltb u t = false
    | NaT => Forall (fun x => x = NaT) dates
    end.
Proof.
  unfold get_csv_date. induction (columns df) as [|c cols IH]; [done |].
  cbn [get_csv_date_from].
  assert (Hskip : column_date df c = None → get_csv_date_from df cols = Some d →
            ∃ before col after dates,
              c :: cols = before ++ col :: after ∧
              Forall (fun c => column_date df c = None) before ∧
              is_date_name col = true ∧
              to_datetime (column_values df col) = Ok dates ∧
              dates ≠ [] ∧
              match d with
              | TS t => TS t ∈ dates ∧ ∀ u, TS u ∈ dates → ts_ltb u t = false
              | NaT => Forall (fun x => x = NaT) dates
              end).
  { intros Hc Hrest. destruct (IH Hrest) as (before & col & after & dates & -> & Hb & Hrestb).
    exists (c :: before), col, after, dates. split; [done |]. split; [by constructor | done]. }
  unfold column_date in Hskip.
  destruct (is_date_name c) eqn:Hname; [|by apply Hskip].
  destruct (to_datetime (column_values df c)) as [[|x dates]|e] eqn:Hparse;
    [by apply Hskip | | by apply Hskip].
  intros Hd. assert (Hmin : series_min (x :: dates) = d) by congruence.
  clear Hd IH Hskip. exists [], c, cols, (x :: dates).
  split; [done |]. split; [constructor |]. split; [done |]. split; [done |].
  split; [done |].
  destruct d as [|t]; [by apply series_min_NaT | by apply series_min_TS].
Qed.

Lemma min_from_timestamps_skip t (ds : list datetime) :
  min_from (TS t) ds = min_from (TS t) (TS <$> timestamps ds).
Proof.
  revert t. induction ds as [|[|x] ds IH]; intros t; [done | |].
  - cbn [min_from dt_lt]. apply IH.
  - cbn [timestamps omap list_omap fmap list_fmap min_from].
    destruct (dt_lt (TS x) (TS t)) as [[]|e]; [apply IH | apply IH | done].
Qed.

Lemma max_from_timestamps_skip t (ds : list datetime) :
  max_from (TS t) ds = max_from (TS t) (TS <$> timestamps ds).
Proof.
  revert t. induction ds as [|[|x] ds IH]; intros t; [done | |].
  - cbn [max_from dt_lt]. apply IH.
  - cbn [timestamps omap list_omap fmap list_fmap max_from].
    destruct (dt_lt (TS t) (TS x)) as [[]|e]; [apply IH | apply IH | done].
Qed.

(** X12.  The derived name is decided by the first date found.  With no date
    at all it is the current date's.  When the first date is [NaT], no name
    is built and [ValueError] is raised.  When it is a timestamp, a [NaT]
    found in a later table is passed over; if every later timestamp is of
    the first one's kind (timezone-aware or timezone-naive), the name runs
    from the earliest to the latest of the timestamps found, and if one is
    of the other kind, [min] raises [TypeError] and no name is built. *)
Theorem generate_date_range_filename_by_first_date dfs :
  match omap get_csv_date dfs with
  | [] =>
      generate_date_range_filename now dfs =
        Ok ("consolidated_" +:+ format_mdY now +:+ ".csv")
  | NaT :: _ =>
      generate_date_range_filename now dfs =
        Raise (ValueError "NaTType does not support strftime")
  | TS t :: ds =>
      if forallb (fun x => Bool.eqb (aware x) (aware t)) (timestamps ds) then
        ∃ lo hi,
          lo ∈ t :: timestamps ds ∧ hi ∈ t :: timestamps ds ∧
          Forall (fun x => ts_ltb x lo = false ∧ ts_ltb hi x = false)
                 (t :: timestamps ds) ∧
          generate_date_range_filename now dfs =
            Ok ("consolidated_" +:+ format_mdY lo +:+ "_thru_" +:+ format_mdY hi +:+ ".csv")
      else
        generate_date_range_filename now dfs = Raise tz_mismatch
  end.
Proof.
  destruct (omap get_csv_date dfs) as [|[|t] ds] eqn:Hdates.
  - by apply generate_date_range_filename_fallback.
  - by apply generate_date_range_filename_NaT with ds.
  - unfold generate_date_range_filename. rewrite Hdates.
    rewrite min_from_timestamps_skip, max_from_timestamps_skip.
    destruct (forallb _ (timestamps ds)) eqn:Hzone.
    + assert (Hall : Forall (fun x => aware x = aware t) (timestamps ds)).
      { apply Forall_forall. intros x Hx. apply eqb_prop.
        rewrite forallb_forall in Hzone. by apply Hzone, list_elem_of_In. }
      destruct (min_from_timestamps t (timestamps ds) Hall) as (lo & -> & Hlo & Hmin).
      destruct (max_from_timestamps t (timestamps ds) Hall) as (hi & -> & Hhi & Hmax).
      exists lo, hi. split; [done |]. split; [done |]. split; [|done].
      apply Forall_forall. intros x Hx. split; [by apply Hmin | by apply Hmax].
    + by rewrite (min_from_mismatch t (timestamps ds) Hzone).
Qed.

(** *** Padding *)

Lemma pad_fold_columns_eq (l : list string) df :
  NoDup l →
  columns (fold_left
      (fun df col => if decide (col ∈ columns df) then df else set_column_na df col) l df)
  = columns df ++ filter (fun c => c ∉ columns df) l.
Proof.
  intros Hnd. revert df. induction Hnd as [|col l Hcol Hnd IH]; intros df.
  - simpl. by rewrite app_nil_r.
  - cbn [fold_left]. rewrite IH. rewrite filter_cons.
    destruct (decide (col ∈ columns df)) as [Hin|Hnin].
    + by rewrite decide_False by (intros Hn; by apply Hn).
    + rewrite decide_True by done. cbn [columns set_column_na].
      rewrite <- app_assoc. f_equal. cbn [app]. f_equal.
      clear IH Hnd. induction l as [|c l IHl]; [done |].
      apply not_elem_of_cons in Hcol as [Hne Hcol]. rewrite !filter_cons, IHl by done.
      destruct (decide (c ∉ columns df)) as [Hc|Hc].
      * rewrite decide_True; [done |]. rewrite elem_of_app, list_elem_of_singleton.
        intros [?| ->]; done.
      * rewrite decide_False; [done |]. rewrite elem_of_app. tauto.
Qed.

Lemma pad_fold_column_values (l : list string) df c :
  column_values (fold_left
      (fun df col => if decide (col ∈ columns df) then df else set_column_na df col) l df) c
  = column_values df c.
Proof.
  revert df. induction l as [|col l IH]; intros df; [done |].
  cbn [fold_left]. rewrite IH. destruct (decide (col ∈ columns df)) as [Hin|Hnin]; [done |].
  unfold column_values. cbn [rows set_column_na]. rewrite <- list_fmap_compose.
  apply list_fmap_ext. intros _ r _. cbn. by apply get_cell_set_column_na.
Qed.

(** X13.  Padding (lines 157-159) keeps the frame's own columns in place and
    appends each label of [all_headers] the frame lacks, once, in the set's
    iteration order; the number of rows is kept, every cell under an old
    column is kept, and every cell under a label the frame lacked is null. *)
Theorem pad_appends_null_columns H df :
  columns (pad so H df) = columns df ++ filter (fun c => c ∉ columns df) (so H) ∧
  length (rows (pad so H df)) = length (rows df) ∧
  (∀ c, c ∈ columns df → column_values (pad so H df) c = column_values df c) ∧
  (∀ c, c ∉ columns df →
        column_values (pad so H df) c = replicate (length (rows df)) NA).
Proof.
  unfold pad. split; [apply pad_fold_columns_eq, NoDup_set_order |].
  assert (Hlen : ∀ l df',
            length (rows (fold_left
              (fun df col => if decide (col ∈ columns df) then df else set_column_na df col)
              l df')) = length (rows df')).
  { induction l as [|col l IH]; intros df'; [done |]. cbn [fold_left]. rewrite IH.
    destruct (decide (col ∈ columns df')); [done |]. cbn. by rewrite length_fmap. }
  split; [apply Hlen |]. split.
  - intros c _. apply pad_fold_column_values.
  - intros c Hc. rewrite pad_fold_column_values. unfold column_values.
    induction (rows df) as [|r rs IH]; [done |].
    rewrite fmap_cons. cbn [length replicate]. by rewrite IH, get_cell_absent.
Qed.

Lemma get_csv_date_from_ext df1 df2 cols :
  (∀ c, column_values df1 c = column_values df2 c) →
  get_csv_date_from df1 cols = get_csv_date_from df2 cols.
Proof.
  intros Heq. induction cols as [|c cols IH]; [done |].
  cbn [get_csv_date_from]. by rewrite Heq, IH.
Qed.

Lemma get_csv_date_from_app df cols1 cols2 :
  get_csv_date_from df (cols1 ++ cols2) =
  match get_csv_date_from df cols1 with
  | Some d => Some d
  | None => get_csv_date_from df cols2
  end.
Proof.
  induction cols1 as [|c cols1 IH]; [done |].
  cbn [app get_csv_date_from]. rewrite IH.
  destruct (is_date_name c); [|done].
  by destruct (to_datetime (column_values df c)) as [[|x dates]|e].
Qed.

(** X14.  The name is derived from the padded frames (line 178 passes the frames
    of line 160).  A frame that yields a date yields the same date after
    padding; a frame that yields none is searched on through the appended
    null columns, in the set's iteration order. *)
Theorem get_csv_date_after_padding H df :
  get_csv_date (pad so H df) =
  match get_csv_date df with
  | Some d => Some d
  | None => get_csv_date_from df (filter (fun c => c ∉ columns df) (so H))
  end.
Proof.
  unfold get_csv_date.
  rewrite (get_csv_date_from_ext (pad so H df) df)
    by (intros c; apply pad_fold_column_values).
  unfold pad. rewrite pad_fold_columns_eq by apply NoDup_set_order.
  apply get_csv_date_from_app.
Qed.

End DateColumns.

(** ** The program *)

Section Program.
Context `{pandas : Pandas}.
Variable so : SetOrder.
Variable now : Timestamp.

(** X15.  The process ends with status 0 or 1.  With more than one argument it
    prints the two usage lines and does nothing else.  With status 1 no file
    has been written.  With status 0 either there was no candidate file and
    nothing was written, or one file was written: under the name given as
    the only argument (with ".csv" appended when the name does not end so),
    or under a derived name when no argument was given. *)
Theorem main_status_and_output argv w :
  let p := main so now argv w in
  match exit_status p with
  | 0 =>
      (length argv <=? 2)%nat = true ∧ printed p = [] ∧
      ((glob (unprocessed w) = [] ∧ processed (world_after p) = processed w) ∨
       ∃ name final,
         processed (world_after p) = <[name := final]> (processed w) ∧
         match argv with
         | [_; given] =>
             name = if endswith given ".csv" then given else given +:+ ".csv"
         | _ => String.prefix "consolidated_" name = true
         end)
  | 1 =>
      processed (world_after p) = processed w ∧
      if (2 <? length argv)%nat then printed p = usage ∧ world_after p = w
      else printed p = []
  | _ => False
  end.
Proof.
  cbv zeta. unfold main.
  destruct (2 <? length argv)%nat eqn:Hlen; [done |].
  assert (Hle : (length argv <=? 2)%nat = true).
  { apply Nat.leb_le. apply Nat.ltb_ge in Hlen. done. }
  set (out := if (length argv =? 2)%nat then nth_error argv 1 else None).
  assert (Hout : out = match argv with [_; given] => Some given | _ => None end).
  { subst out. by destruct argv as [|a [|b [|c l]]]. }
  destruct (run_cases so now out w)
    as [[Hnil ->]|[(first & rest & f & e & _ & _ & ->)
       |[(first & rest & _ & _ & _ & _ & ->)
        |(first & rest & H & asked & lines & _ & _ & _ & Hrun)]]];
    cbn [exit_status printed world_after processed outcome_world].
  - split; [done |]. split; [done |]. by left.
  - done.
  - done.
  - cbv zeta in Hrun. destruct (output_name now out _) as [name|e] eqn:Hname;
      rewrite Hrun; cbn [exit_status printed world_after processed outcome_world];
      [|done].
    split; [done |]. split; [done |]. right. eexists name, _. split; [done |].
    apply output_name_shape in Hname as [_ Hname]. rewrite Hout in Hname.
    by destruct argv as [|a [|b [|c l]]].
Qed.

End Program.

(** * The further properties on concrete directories *)

(** [a.csv] has one line before its header line: [skiprows] is 1. *)
Lemma read_csv_with_metadata_skiprows_at_first_marker_witness :
  let w := Sample.world [Sample.a_csv; Sample.b_csv] [] in
  let lines := ["Account report"; "ID,Timestamp,Transaction Type";
                "1,2024-01-05,deposit"; "2,2024-01-10,withdrawal"] in
  ∃ pre line post,
    lines = pre ++ line :: post ∧
    has_marker pre = false ∧
    is_substring marker line = true ∧
    read_csv_with_metadata (pandas := Sample.sample_pandas) "a.csv" w =
      match Sample.sample_read_csv lines (Z.of_nat (length pre)) with
      | Ok df => (Ok df, w)
      | Raise e => (Raise e, add_events [Log ERROR (MsgErrorReading "a.csv" e)] w)
      end.
Proof.
  cbv zeta.
  apply (@read_csv_with_metadata_skiprows_at_first_marker Sample.sample_pandas "a.csv"
           (Sample.world [Sample.a_csv; Sample.b_csv] [])); reflexivity.
Defined.

(** The header pass over [a.csv] and [fee.csv]. *)
Lemma get_all_headers_collects_every_file_witness :
  let w := Sample.world [Sample.a_csv; Sample.fee_csv] [] in
  ∃ all_headers headers_by_file,
    get_all_headers (pandas := Sample.sample_pandas) ["a.csv"; "fee.csv"] w
      = (Ok (all_headers, headers_by_file), w).
Proof.
  cbv zeta.
  destruct (@get_all_headers_collects_every_file Sample.sample_pandas ["a.csv"; "fee.csv"]
              (Sample.world [Sample.a_csv; Sample.fee_csv] []))
    as (all_headers & headers_by_file & Hrun & _).
  - repeat constructor.
  - exists all_headers, headers_by_file. exact Hrun.
Defined.

(** A directory that holds [notes.txt] only. *)
Lemma no_candidate_no_run_witness :
  Sample.run Sample.seed_a None (Sample.world [Sample.notes_txt] ["y"]) =
  (Ok tt, add_events [Log ERROR MsgNoCsvFiles] (Sample.world [Sample.notes_txt] ["y"])).
Proof.
  apply (@no_candidate_no_run Sample.sample_pandas Sample.seed_a Sample.today None
           (Sample.world [Sample.notes_txt] ["y"])).
  repeat constructor.
Defined.

(** [a.csv] (two rows) and [b.csv] (one row) merged into [out.csv]. *)
Lemma returning_run_reports_totals_witness :
  let r := Sample.run Sample.seed_a (Some "out") (Sample.world [Sample.a_csv; Sample.b_csv] []) in
  ∃ name final earlier,
    processed r.2 = <[name := final]> ∅ ∧
    length (rows final) = 3 ∧
    new_events (Sample.world [Sample.a_csv; Sample.b_csv] []) r.2 =
      earlier ++ [Log INFO (MsgConsolidated 2 name);
                  Log INFO (MsgTotalRows (length (rows final)));
                  Log INFO (MsgTotalColumns (length (columns final)))].
Proof.
  cbv zeta.
  destruct (@returning_run_reports_totals Sample.sample_pandas Sample.seed_a Sample.today
              (Some "out") (Sample.world [Sample.a_csv; Sample.b_csv] []))
    as (name & final & earlier & Hp & Hrows & _ & Hev).
  - discriminate.
  - reflexivity.
  - exists name, final, earlier. split; [exact Hp |]. split; [exact Hrows | exact Hev].
Defined.

(** In [mixed_table] the column "Update time" has a date name and does not
    parse; the date comes from the column "date". *)
Lemma get_csv_date_earliest_of_first_date_column_witness :
  ∃ before col after dates,
    columns Sample.mixed_table = before ++ col :: after ∧
    Forall (fun c => column_date (pandas := Sample.sample_pandas) Sample.mixed_table c = None)
           before ∧
    is_date_name col = true ∧
    Sample.sample_to_datetime (column_values Sample.mixed_table col) = Ok dates ∧
    dates ≠ [] ∧
    TS {| year := 2024; month := 5; day := 1; time_ns := 0; utc := None |} ∈ dates.
Proof.
  destruct (@get_csv_date_earliest_of_first_date_column Sample.sample_pandas
              Sample.mixed_table
              (TS {| year := 2024; month := 5; day := 1; time_ns := 0; utc := None |}))
    as (before & col & after & dates & Hc & Hb & Hn & Hp & Hne & Hin & _).
  - reflexivity.
  - exists before, col, after, dates.
    split; [exact Hc |]. split; [exact Hb |]. split; [exact Hn |].
    split; [exact Hp |]. split; [exact Hne | exact Hin].
Defined.
